(** * Style dictionaries and the CSS class generator

    A shallow embedding of the style-composition code of
    [fasthtml-styling-experiments]:

    - [04_style_dictionaries.py]: [dict_to_style] and [merge_styles];
    - [06_css_class_generator.py]: the class [CSSGenerator] with its
      methods [__init__], [add_class] and [to_css], its three class
      libraries [add_utility_classes], [generate_responsive_classes] and
      [generate_component_classes], and the generator [css_gen] that the
      module builds from them.

    The element constructors that the scripts call come from the
    [fasthtml] package; the one claim about them is settled against a
    model of the builder written from its specification.

    Python dictionaries keep their keys in insertion order and that order
    shows in every string the code prints, so a dictionary is modelled as an
    association list in insertion order, not as an unordered finite map.
    Objects that the code passes by reference (the dictionaries handed to
    [merge_styles], the generator instance that [add_class] returns) live
    in a store, a [gmap] from locations to objects. *)

From Stdlib Require Import Ascii String.
From stdpp Require Import base tactics option list strings pretty gmap.

Local Open Scope stdpp_scope.
Local Set Warnings "-register-all,-clear-no-such-hyp".

(** The elements of a sequence in the order of their first occurrence. *)
Fixpoint first_occurrences `{EqDecision A} (l : list A) : list A :=
  match l with
  | [] => []
  | x :: l' => x :: filter (λ y, y ≠ x) (first_occurrences l')
  end.

(** ** Python's insertion-ordered [dict] *)

Module PyDict.
(** The items of the dictionary, oldest key first. *)
Abbreviation t K V := (list (K * V)).

Section dict.
Context {K V : Type} `{EqDecision K}.
Implicit Types d r : t K V.

Definition keys d : list K := d.*1.

(** The invariant of every Python dictionary: a key occurs once. *)
Definition wf d : Prop := NoDup (keys d).

Global Instance wf_dec d : Decision (wf d).
Proof. unfold wf. apply _. Defined.

(** [d.get(k)] *)
Fixpoint get (k : K) d : option V :=
  match d with
  | [] => None
  | (k', v) :: d' => if decide (k = k') then Some v else get k d'
  end.

(** [d[k] = v]: a key that is present keeps its place and takes the new
    value, a new key goes to the end. *)
Fixpoint set (k : K) (v : V) d : t K V :=
  match d with
  | [] => [(k, v)]
  | (k', v') :: d' =>
      if decide (k = k') then (k', v) :: d' else (k', v') :: set k v d'
  end.

(** [r.update(d)]: [r[k] = v] for each item of [d], in the order of [d]. *)
Definition update r d : t K V :=
  foldl (λ acc kv, set kv.1 kv.2 acc) r d.
End dict.
End PyDict.

(** A style declaration: CSS property names to CSS values. *)
Abbreviation style_dict := (PyDict.t string string).

(** ** [04_style_dictionaries.py] *)

(** [sep.join(parts)] is the standard library's [String.concat]. *)
Abbreviation join := String.concat.

(** The f-string [f"{key}: {value}"]. *)
Definition style_item (kv : string * string) : string :=
  kv.1 +:+ ": " +:+ kv.2.

(** [dict_to_style]:
    ["; ".join(f"{key}: {value}" for key, value in style_dict.items()) + ";"] *)
Definition dict_to_style (style_dict : style_dict) : string :=
  join "; " (style_item <$> style_dict) +:+ ";".

(** [merge_styles], called with the dictionaries [style_dicts] as its
    positional arguments, on the values of the dictionaries:
    [result = {}], then [result.update(d)] for each argument, left to
    right. *)
Definition merge_styles (style_dicts : list style_dict) : style_dict :=
  foldl PyDict.update [] style_dicts.

(** ** The object store

    Python passes dictionaries and instances by reference.  A store maps
    the locations in use to the objects they hold; a method is a function
    of the store that returns a value and the store it leaves behind, or
    [None] when the call does not return: it raises an exception, or it
    is handed a location that holds no object (which no Python program
    can do, a reference keeps its object alive). *)

Definition loc := positive.

Definition M (O A : Type) : Type := gmap loc O → option (A * gmap loc O).

(** The exception that a call of the code can end with: Python raises
    [TypeError] when it cannot bind the arguments of a call to the
    parameters of the function. *)
Inductive exception := TypeError.

Section store.
Context {O : Type}.

Global Instance M_ret : MRet (M O) := λ A a σ, Some (a, σ).

Global Instance M_bind : MBind (M O) := λ A B k m σ,
  match m σ with
  | Some (a, σ') => k a σ'
  | None => None
  end.

(** [raise e]: the call ends here and returns nothing. *)
Definition raise {A} (e : exception) : M O A := λ _, None.

(** A new object, at a location that is not in use. *)
Definition alloc (o : O) : M O loc :=
  λ σ, let l := fresh (dom σ) in Some (l, <[l:=o]> σ).

Definition load (l : loc) : M O O :=
  λ σ, match σ !! l with
       | Some o => Some (o, σ)
       | None => None
       end.

(** Mutation of the object at [l] in place. *)
Definition store (l : loc) (o : O) : M O unit :=
  λ σ, match σ !! l with
       | Some _ => Some ((), <[l:=o]> σ)
       | None => None
       end.

(** [for x in xs: body(x)] *)
Fixpoint for_each {A} (xs : list A) (body : A → M O unit) : M O unit :=
  match xs with
  | [] => mret ()
  | x :: xs' => body x;; for_each xs' body
  end.
End store.

(** [merge_styles] with its arguments as Python passes them, by reference:
    [result = {}] allocates the result, [result.update(d)] reads the
    argument [d] and mutates [result], [return result] hands out the
    reference. *)
Module Heap.
Definition merge_styles (style_dicts : list loc) : M style_dict loc :=
  result ← alloc [];
  for_each style_dicts (λ d,
    dv ← load d;
    rv ← load result;
    store result (PyDict.update rv dv));;
  mret result.
End Heap.

(** ** [06_css_class_generator.py] *)

(** An instance of [CSSGenerator]; its one attribute is [classes], class
    name to style declaration.  [add_class] takes the declaration as
    keyword arguments, [**styles], so each call binds [styles] to a
    dictionary of its own and [classes] can hold it by value. *)
Record CSSGenerator := { classes : PyDict.t string style_dict }.

(** [__init__]: [self.classes = {}], the attributes of a new instance. *)
Definition __init__ : CSSGenerator := {| classes := [] |}.

(** The call [CSSGenerator()]: a new instance, initialised by [__init__]. *)
Definition CSSGenerator_new : M CSSGenerator loc := alloc __init__.

(** The keyword arguments that a call [add_class(name, **styles)] can
    bind to the parameter [**styles] of the signature
    [add_class(self, name, **styles)]: every keyword is given once, and
    none is [self] or [name], the parameters that the receiver and the
    first argument are bound to already. *)
Definition keywords_ok (styles : style_dict) : Prop :=
  PyDict.wf styles
  ∧ ("self" ∉ PyDict.keys styles) ∧ ("name" ∉ PyDict.keys styles).

Global Instance keywords_ok_dec (styles : style_dict) :
  Decision (keywords_ok styles).
Proof. unfold keywords_ok. apply _. Defined.

(** The binding of the keyword arguments of a call of [add_class]: the
    dictionary [styles] of the body, or the [TypeError] that Python raises
    for a keyword given twice or for a keyword [self] or [name] (the
    function got multiple values for that argument). *)
Definition bind_keywords (styles : style_dict) : M CSSGenerator style_dict :=
  if decide (keywords_ok styles) then mret styles else raise TypeError.

(** [add_class], called on [self] with [name] and the keyword arguments
    [styles]: the arguments are bound, then the body runs,
    [self.classes[name] = styles] and [return self]. *)
Definition add_class (self : loc) (name : string) (styles : style_dict)
  : M CSSGenerator loc :=
  styles ← bind_keywords styles;
  g ← load self;
  store self {| classes := PyDict.set name styles (classes g) |};;
  mret self.

Definition newline : string := String "010"%char EmptyString.

(** The body of the loop of [to_css]: [style_str] is
    ["; ".join(f"{k}: {v}" for k, v in styles.items())], and the line
    appended to [css_lines] is [f".{class_name} {{ {style_str}; }}"]. *)
Definition css_line (item : string * style_dict) : string :=
  let style_str := join "; " (style_item <$> item.2) in
  "." +:+ item.1 +:+ " { " +:+ style_str +:+ "; }".

(** [css_lines = []], then one [append] for each item of [classes]. *)
Definition css_lines (classes : PyDict.t string style_dict) : list string :=
  foldl (λ lines item, lines ++ [css_line item]) [] classes.

(** [to_css]: the lines joined by a newline character. *)
Definition to_css (self : loc) : M CSSGenerator string :=
  g ← load self;
  mret (join newline (css_lines (classes g))).

(** Registration of several classes on one instance, one [add_class]
    call after the other. *)
Definition add_classes (self : loc) (regs : list (string * style_dict))
  : M CSSGenerator unit :=
  for_each regs (λ r, add_class self r.1 r.2;; mret ()).

(** ** The element tree builder *)

(** Modelled from the spec: the element tree builder of section 4.1,
    [Node], [makeElement] and [serialize].  The scripts import the builder
    from the [fasthtml] package; its code is not part of the sources.  The
    spec names the five characters that a text leaf escapes and not their
    replacements; the usual character references are taken, of which the
    spec's own example fixes [&amp;]. *)
Inductive Node :=
  | Element (tag : string) (attributes : PyDict.t string string)
            (children : list Node)
  | RawContent (markup : string)
  | TextLeaf (text : string).

(** Modelled from the spec: the error of section 7 that [makeElement]
    fails with.  The depth guard and its [StructureError] are optional
    there and left out. *)
Inductive BuilderError := InvalidNodeError.

(** The double quote character, as a string. *)
Definition dquote : string := String "034"%char EmptyString.

(** Modelled from the spec: the escaping of the five markup-significant
    characters of a text leaf (the function is missing from the sources
    with the builder). *)
Definition escape_char (c : ascii) : string :=
  match c with
  | "&"%char => "&amp;"
  | "<"%char => "&lt;"
  | ">"%char => "&gt;"
  | "034"%char => "&quot;"
  | "'"%char => "&#x27;"
  | _ => String c EmptyString
  end.

(** Modelled from the spec: a text escaped character by character. *)
Fixpoint escape (s : string) : string :=
  match s with
  | EmptyString => EmptyString
  | String c s' => escape_char c +:+ escape s'
  end.

(** Modelled from the spec: the test of [makeElement] for a tag that is
    empty or all white space. *)
Fixpoint blank (s : string) : bool :=
  match s with
  | EmptyString => true
  | String c s' => Ascii.is_space c && blank s'
  end.

(** Modelled from the spec: [makeElement] of the missing builder; it fails
    with [InvalidNodeError] on a blank tag and builds the node otherwise
    (attribute values are strings by their type). *)
Definition makeElement (tag : string) (attributes : PyDict.t string string)
    (children : list Node) : BuilderError + Node :=
  if blank tag then inl InvalidNodeError
  else inr (Element tag attributes children).

(** Modelled from the spec: one attribute of an opening tag, the value
    escaped by the builder. *)
Definition attribute_text (a : string * string) : string :=
  " " +:+ a.1 +:+ "=" +:+ dquote +:+ escape a.2 +:+ dquote.

(** Modelled from the spec: [serialize] of the missing builder; an
    element is its opening tag with the attributes in the order given, its
    children in order, and the matching closing tag; raw content is
    emitted as it is, a text leaf escaped. *)
Fixpoint serialize (n : Node) : string :=
  match n with
  | Element tag attributes children =>
      "<" +:+ tag +:+ join EmptyString (attribute_text <$> attributes) +:+ ">"
      +:+ join EmptyString (List.map serialize children)
      +:+ "</" +:+ tag +:+ ">"
  | RawContent markup => markup
  | TextLeaf text => escape text
  end.

(** ** The shapes the specification names *)

(** One property with the semicolon that follows it: [prop: value;]. *)
Definition declaration_text (kv : string * string) : string :=
  kv.1 +:+ ": " +:+ kv.2 +:+ ";".

(** [prop: value; prop2: value2;]: every property followed by its
    semicolon, the properties one blank apart. *)
Definition inline_style_text (d : style_dict) : string :=
  join " " (declaration_text <$> d).

(** [.name { prop: value; ... }] *)
Definition rule_block (item : string * style_dict) : string :=
  "." +:+ item.1 +:+ " { " +:+ inline_style_text item.2 +:+ " }".

(** The block that [to_css] prints for a class: the shape above for a
    declaration with properties, and a semicolon alone between the braces
    for an empty declaration. *)
Definition css_block (item : string * style_dict) : string :=
  if decide (item.2 = []) then "." +:+ item.1 +:+ " { ; }"
  else rule_block item.

(** The binding of [k] in the rightmost dictionary that has one. *)
Fixpoint rightmost (k : string) (ds : list style_dict) : option string :=
  match ds with
  | [] => None
  | d :: ds' =>
      match rightmost k ds' with
      | Some v => Some v
      | None => PyDict.get k d
      end
  end.

(** ** The class libraries of [CSSGenerator]

    The three methods that fill a generator with ready-made classes.  Each
    is a sequence of [self.add_class] calls whose results are dropped, and
    ends with [return self].  An f-string with an integer in it prints the
    integer in decimal, as [pretty] does. *)

(** [colors], the local dictionary of [add_utility_classes]. *)
Definition colors : PyDict.t string string :=
  [("blue", "#3b82f6"); ("green", "#10b981"); ("red", "#ef4444");
   ("yellow", "#f59e0b"); ("purple", "#8b5cf6"); ("gray", "#6b7280")].

(** [add_utility_classes]: the text colours, the background colours, the
    spacing scale [p-i] and [m-i] for [i] in [[0, 1, 2, 3, 4, 5]] with
    [size = i * 4], the corner radii, the font weights and the text
    alignments. *)
Definition add_utility_classes (self : loc) : M CSSGenerator loc :=
  for_each colors (λ item,
    add_class self ("text-" +:+ item.1) [("color", item.2)];; mret ());;
  for_each colors (λ item,
    add_class self ("bg-" +:+ item.1) [("background-color", item.2)];;
    mret ());;
  for_each [0; 1; 2; 3; 4; 5]%Z (λ i,
    let size := (i * 4)%Z in
    add_class self ("p-" +:+ pretty i) [("padding", pretty size +:+ "px")];;
    add_class self ("m-" +:+ pretty i) [("margin", pretty size +:+ "px")];;
    mret ());;
  add_class self "rounded" [("border-radius", "4px")];;
  add_class self "rounded-lg" [("border-radius", "8px")];;
  add_class self "rounded-xl" [("border-radius", "12px")];;
  add_class self "rounded-full" [("border-radius", "9999px")];;
  add_class self "font-normal" [("font-weight", "400")];;
  add_class self "font-medium" [("font-weight", "500")];;
  add_class self "font-semibold" [("font-weight", "600")];;
  add_class self "font-bold" [("font-weight", "700")];;
  add_class self "text-left" [("text-align", "left")];;
  add_class self "text-center" [("text-align", "center")];;
  add_class self "text-right" [("text-align", "right")];;
  mret self.

(** [generate_responsive_classes]: the flex and grid utilities.  A keyword
    written before a [**] dictionary comes first in [styles]. *)
Definition generate_responsive_classes (self : loc) : M CSSGenerator loc :=
  add_class self "flex" [("display", "flex")];;
  add_class self "flex-col"
    [("display", "flex"); ("flex-direction", "column")];;
  add_class self "flex-row" [("display", "flex"); ("flex-direction", "row")];;
  add_class self "items-center" [("align-items", "center")];;
  add_class self "justify-center" [("justify-content", "center")];;
  add_class self "justify-between" [("justify-content", "space-between")];;
  add_class self "grid" [("display", "grid")];;
  add_class self "grid-cols-2"
    [("display", "grid"); ("grid-template-columns", "repeat(2, 1fr)")];;
  add_class self "grid-cols-3"
    [("display", "grid"); ("grid-template-columns", "repeat(3, 1fr)")];;
  add_class self "gap-4" [("gap", "16px")];;
  mret self.

(** [generate_component_classes]: the button, card and badge classes. *)
Definition generate_component_classes (self : loc) : M CSSGenerator loc :=
  add_class self "btn"
    [("padding", "10px 20px"); ("border", "none"); ("border-radius", "6px");
     ("font-weight", "600"); ("cursor", "pointer");
     ("transition", "all 0.3s ease")];;
  add_class self "btn-primary"
    [("background-color", "#3b82f6"); ("color", "white")];;
  add_class self "btn-secondary"
    [("background-color", "#6b7280"); ("color", "white")];;
  add_class self "card"
    [("background", "white"); ("border", "1px solid #e5e7eb");
     ("border-radius", "12px"); ("padding", "20px");
     ("box-shadow", "0 1px 3px rgba(0,0,0,0.1)")];;
  add_class self "badge"
    [("display", "inline-block"); ("padding", "4px 12px");
     ("border-radius", "12px"); ("font-size", "12px");
     ("font-weight", "600")];;
  mret self.

(** The module-level generator [css_gen]: a new instance, the three
    libraries, then the classes of the page itself. *)
Definition css_gen : M CSSGenerator loc :=
  css_gen ← CSSGenerator_new;
  add_utility_classes css_gen;;
  generate_responsive_classes css_gen;;
  generate_component_classes css_gen;;
  add_class css_gen "hero"
    [("background", "linear-gradient(135deg, #667eea 0%, #764ba2 100%)");
     ("color", "white"); ("padding", "60px 20px"); ("text-align", "center");
     ("border-radius", "16px"); ("margin-bottom", "30px")];;
  add_class css_gen "feature-box"
    [("padding", "30px"); ("border", "2px solid #e5e7eb");
     ("border-radius", "12px"); ("text-align", "center");
     ("transition", "all 0.3s ease")];;
  add_class css_gen "feature-box:hover"
    [("border-color", "#3b82f6");
     ("box-shadow", "0 10px 20px rgba(59, 130, 246, 0.2)");
     ("transform", "translateY(-5px)")];;
  mret css_gen.

(** The registrations that [add_utility_classes] makes, in call order. *)
Definition utility_classes : list (string * style_dict) :=
  ((λ item, ("text-" +:+ item.1, [("color", item.2)])) <$> colors)
  ++ ((λ item, ("bg-" +:+ item.1, [("background-color", item.2)])) <$> colors)
  ++ mjoin ((λ i : Z,
       [("p-" +:+ pretty i, [("padding", pretty (i * 4)%Z +:+ "px")]);
        ("m-" +:+ pretty i, [("margin", pretty (i * 4)%Z +:+ "px")])])
     <$> [0; 1; 2; 3; 4; 5]%Z)
  ++ [("rounded", [("border-radius", "4px")]);
      ("rounded-lg", [("border-radius", "8px")]);
      ("rounded-xl", [("border-radius", "12px")]);
      ("rounded-full", [("border-radius", "9999px")]);
      ("font-normal", [("font-weight", "400")]);
      ("font-medium", [("font-weight", "500")]);
      ("font-semibold", [("font-weight", "600")]);
      ("font-bold", [("font-weight", "700")]);
      ("text-left", [("text-align", "left")]);
      ("text-center", [("text-align", "center")]);
      ("text-right", [("text-align", "right")])].

(** The registrations that [generate_responsive_classes] makes. *)
Definition responsive_classes : list (string * style_dict) :=
  [("flex", [("display", "flex")]);
   ("flex-col", [("display", "flex"); ("flex-direction", "column")]);
   ("flex-row", [("display", "flex"); ("flex-direction", "row")]);
   ("items-center", [("align-items", "center")]);
   ("justify-center", [("justify-content", "center")]);
   ("justify-between", [("justify-content", "space-between")]);
   ("grid", [("display", "grid")]);
   ("grid-cols-2",
    [("display", "grid"); ("grid-template-columns", "repeat(2, 1fr)")]);
   ("grid-cols-3",
    [("display", "grid"); ("grid-template-columns", "repeat(3, 1fr)")]);
   ("gap-4", [("gap", "16px")])].

(** The registrations that [generate_component_classes] makes. *)
Definition component_classes : list (string * style_dict) :=
  [("btn",
    [("padding", "10px 20px"); ("border", "none"); ("border-radius", "6px");
     ("font-weight", "600"); ("cursor", "pointer");
     ("transition", "all 0.3s ease")]);
   ("btn-primary", [("background-color", "#3b82f6"); ("color", "white")]);
   ("btn-secondary", [("background-color", "#6b7280"); ("color", "white")]);
   ("card",
    [("background", "white"); ("border", "1px solid #e5e7eb");
     ("border-radius", "12px"); ("padding", "20px");
     ("box-shadow", "0 1px 3px rgba(0,0,0,0.1)")]);
   ("badge",
    [("display", "inline-block"); ("padding", "4px 12px");
     ("border-radius", "12px"); ("font-size", "12px");
     ("font-weight", "600")])].

(** The registrations that the module makes on [css_gen] after the three
    libraries. *)
Definition page_classes : list (string * style_dict) :=
  [("hero",
    [("background", "linear-gradient(135deg, #667eea 0%, #764ba2 100%)");
     ("color", "white"); ("padding", "60px 20px"); ("text-align", "center");
     ("border-radius", "16px"); ("margin-bottom", "30px")]);
   ("feature-box",
    [("padding", "30px"); ("border", "2px solid #e5e7eb");
     ("border-radius", "12px"); ("text-align", "center");
     ("transition", "all 0.3s ease")]);
   ("feature-box:hover",
    [("border-color", "#3b82f6");
     ("box-shadow", "0 10px 20px rgba(59, 130, 246, 0.2)");
     ("transform", "translateY(-5px)")])].

(** The three library methods, each with the registrations it makes. *)
Definition class_libraries
  : list ((loc → M CSSGenerator loc) * list (string * style_dict)) :=
  [(add_utility_classes, utility_classes);
   (generate_responsive_classes, responsive_classes);
   (generate_component_classes, component_classes)].

(** Calls of several methods on one instance, one after the other, the
    results dropped. *)
Definition call_each (self : loc) (methods : list (loc → M CSSGenerator loc))
  : M CSSGenerator unit :=
  for_each methods (λ method, method self;; mret ()).

(** ** Predicates of the proofs about the libraries *)

(** A method that makes the registrations [regs] on its receiver and
    returns it. *)
Definition runs_as (method : loc → M CSSGenerator loc)
    (regs : list (string * style_dict)) : Prop :=
  ∀ (σ : gmap loc CSSGenerator) self g,
    σ !! self = Some g →
    method self σ
    = Some (self,
            <[self := {| classes := PyDict.update (classes g) regs |}]> σ).

(** Two dictionaries of classes with the same declaration under every
    name. *)
Definition agree (c c' : list (string * style_dict)) : Prop :=
  ∀ name, PyDict.get name c = PyDict.get name c'.

(** Calls of [methods1] on a generator and of [methods2] on a generator
    that agrees with it succeed and leave generators that agree. *)
Definition call_each_agree (self : loc)
    (methods1 methods2 : list (loc → M CSSGenerator loc)) : Prop :=
  ∀ (σ σ' : gmap loc CSSGenerator) g g',
    σ !! self = Some g → σ' !! self = Some g' →
    agree (classes g) (classes g') →
    ∃ σ1 σ2 g1 g2,
      call_each self methods1 σ = Some ((), σ1)
      ∧ call_each self methods2 σ' = Some ((), σ2)
      ∧ σ1 !! self = Some g1 ∧ σ2 !! self = Some g2
      ∧ agree (classes g1) (classes g2)
      ∧ (PyDict.wf (classes g) → PyDict.wf (classes g1))
      ∧ (PyDict.wf (classes g') → PyDict.wf (classes g2)).

(** * Sanity checks

    The definitions run: the docstring example of [dict_to_style], a merge
    with a shared key, a merge through the store with one dictionary passed
    twice, a serialization and a stylesheet. *)

Example dict_to_style_docstring :
  dict_to_style [("color", "red"); ("font-size", "16px")]
  = "color: red; font-size: 16px;".
Proof. reflexivity. Qed.

Example merge_styles_overlap :
  merge_styles [ [("a", "1"); ("b", "2")]; [("c", "3"); ("a", "4")] ]
  = [("a", "4"); ("b", "2"); ("c", "3")].
Proof. reflexivity. Qed.

Example heap_merge_run :
  Heap.merge_styles [1%positive; 1%positive] {[ 1%positive := [("a", "1")] ]}
  = Some (2%positive, {[ 1%positive := [("a", "1")]; 2%positive := [("a", "1")] ]}).
Proof. vm_compute. reflexivity. Qed.

Example serialize_run :
  serialize (Element "p" [("style", "a")] [TextLeaf "Hi & bye"])
  = "<p style=" +:+ dquote +:+ "a" +:+ dquote +:+ ">Hi &amp; bye</p>".
Proof. vm_compute. reflexivity. Qed.

Example to_css_two_classes :
  (g ← CSSGenerator_new;
   add_classes g [("a", [("color", "red"); ("margin", "0")]); ("b", [])];;
   to_css g) ∅
  = Some (".a { color: red; margin: 0; }" +:+ newline +:+ ".b { ; }",
          {[ 1%positive := {| classes := [("a", [("color", "red"); ("margin", "0")]); ("b", [])] |} ]}).
Proof. vm_compute. reflexivity. Qed.

(** * Auxiliary results *)

(** ** First occurrences *)

Section first_occurrences.
Context `{EqDecision A}.
Implicit Types (l : list A) (x : A).

Lemma elem_of_first_occurrences l x : x ∈ first_occurrences l ↔ x ∈ l.
Proof.
  induction l as [|y l IH]; simpl; [done|].
  rewrite !elem_of_cons, list_elem_of_filter, IH.
  destruct (decide (x = y)); intuition congruence.
Qed.

Lemma first_occurrences_snoc l x :
  first_occurrences (l ++ [x])
  = if decide (x ∈ l) then first_occurrences l else first_occurrences l ++ [x].
Proof.
  induction l as [|y l IH]; simpl.
  - done.
  - rewrite IH. destruct (decide (x = y)) as [->|Hne].
    + rewrite (decide_True (P := (y ∈ y :: l))) by apply list_elem_of_here.
      case_decide; [done|].
      rewrite filter_app, filter_cons_False, filter_nil by (intros ?; done).
      by rewrite (right_id_L [] (++)).
    + case_decide as Hx.
      * rewrite decide_True; [done|by apply list_elem_of_further].
      * rewrite decide_False by (rewrite elem_of_cons; intuition).
        by rewrite filter_app, filter_cons_True, filter_nil by done.
Qed.

Lemma NoDup_snoc l x : NoDup (l ++ [x]) ↔ (x ∉ l) ∧ NoDup l.
Proof.
  rewrite NoDup_app. split.
  - intros (Hl & Hx & _). split; [|done].
    intros Hin. apply (Hx x Hin), list_elem_of_here.
  - intros [Hx Hl]. split_and!; [done| |apply NoDup_singleton].
    intros y Hy ->%list_elem_of_singleton. done.
Qed.

Lemma first_occurrences_NoDup l : NoDup l → first_occurrences l = l.
Proof.
  induction l as [|x l IH] using rev_ind; [done|].
  intros [Hx Hl]%NoDup_snoc. rewrite first_occurrences_snoc, IH by done.
  by rewrite decide_False.
Qed.

Lemma NoDup_first_occurrences l : NoDup (first_occurrences l).
Proof.
  induction l as [|x l IH] using rev_ind; [constructor|].
  rewrite first_occurrences_snoc. case_decide; [done|].
  apply NoDup_snoc. by rewrite elem_of_first_occurrences.
Qed.

Lemma first_occurrences_app_l l l' :
  first_occurrences (first_occurrences l ++ l') = first_occurrences (l ++ l').
Proof.
  induction l' as [|x l' IH] using rev_ind.
  - rewrite !(right_id_L [] (++)).
    apply first_occurrences_NoDup, NoDup_first_occurrences.
  - rewrite !(assoc_L (++)), !first_occurrences_snoc, IH.
    apply decide_ext.
    by rewrite !elem_of_app, elem_of_first_occurrences.
Qed.
End first_occurrences.

(** ** Dictionaries *)

Module PyDictFacts.
Import PyDict.
Section facts.
Context {K V : Type} `{EqDecision K}.
Implicit Types (d r : PyDict.t K V) (k : K) (v : V).

Lemma wf_cons k v d : wf ((k, v) :: d) ↔ (k ∉ keys d) ∧ wf d.
Proof. apply NoDup_cons. Qed.

Lemma keys_cons k v d : keys ((k, v) :: d) = k :: keys d.
Proof. done. Qed.

Lemma filter_other_keys k d : k ∉ keys d → filter (λ c, c.1 ≠ k) d = d.
Proof.
  induction d as [|[k' v'] d IH]; [done|].
  rewrite keys_cons, not_elem_of_cons. intros [Hne Hk].
  rewrite filter_cons_True by (simpl; congruence). by rewrite IH.
Qed.

Lemma keys_snoc d k v : keys (d ++ [(k, v)]) = keys d ++ [k].
Proof. unfold keys. by rewrite fmap_app. Qed.

Lemma get_None k d : get k d = None ↔ k ∉ keys d.
Proof.
  induction d as [|[k' v'] d IH]; simpl.
  - split; [intros _; apply not_elem_of_nil|done].
  - rewrite not_elem_of_cons. case_decide; [naive_solver|].
    rewrite IH. naive_solver.
Qed.

Lemma get_app k d d' :
  get k (d ++ d') = match get k d with Some v => Some v | None => get k d' end.
Proof.
  induction d as [|[k' v'] d IH]; simpl; [done|]. by case_decide.
Qed.

Lemma get_set_eq k v d : get k (set k v d) = Some v.
Proof.
  induction d as [|[k' v'] d IH]; simpl.
  - by rewrite decide_True.
  - case_decide; simpl; [by rewrite decide_True|by rewrite decide_False].
Qed.

Lemma get_set_ne k k' v d : k ≠ k' → get k' (set k v d) = get k' d.
Proof.
  intros Hne. induction d as [|[k0 v0] d IH]; simpl.
  - by rewrite decide_False.
  - case_decide; simpl; [subst; by rewrite !decide_False|].
    by rewrite IH.
Qed.

(** A new key goes to the end. *)
Lemma set_new k v d : k ∉ keys d → set k v d = d ++ [(k, v)].
Proof.
  induction d as [|[k' v'] d IH]; simpl; [done|].
  intros [??]%not_elem_of_cons. rewrite decide_False by done. by rewrite IH.
Qed.

(** The keys after [d[k] = v]. *)
Lemma keys_set k v d :
  keys (set k v d) = if decide (k ∈ keys d) then keys d else keys d ++ [k].
Proof.
  induction d as [|[k' v'] d IH]; simpl; [done|].
  destruct (decide (k = k')) as [->|Hne]; simpl.
  - by rewrite decide_True by apply list_elem_of_here.
  - fold (keys (set k v d)). fold (keys d). rewrite IH. case_decide.
    + rewrite decide_True; [done|by apply list_elem_of_further].
    + rewrite decide_False; [done|]. rewrite elem_of_cons. intuition.
Qed.

Lemma elem_of_keys_set k k' v d :
  k' ∈ keys (set k v d) ↔ k' = k ∨ k' ∈ keys d.
Proof.
  rewrite keys_set. case_decide.
  - naive_solver.
  - rewrite elem_of_app, list_elem_of_singleton. naive_solver.
Qed.

Lemma wf_set k v d : wf d → wf (set k v d).
Proof.
  unfold wf. rewrite keys_set. case_decide; [done|].
  intros. by apply NoDup_snoc.
Qed.

Lemma set_set_eq k v v0 d : set k v (set k v0 d) = set k v d.
Proof.
  induction d as [|[k' v'] d IH]; simpl.
  - by rewrite decide_True.
  - case_decide; simpl; [by rewrite decide_True|].
    by rewrite decide_False, IH.
Qed.

(** An assignment to a key that is present commutes with any other. *)
Lemma set_set_present k k1 v v1 d :
  k ∈ keys d → k ≠ k1 →
  set k v (set k1 v1 d) = set k1 v1 (set k v d).
Proof.
  intros Hin Hne. induction d as [|[k' v'] d IH]; simpl.
  - by apply elem_of_nil in Hin.
  - destruct (decide (k1 = k')) as [->|Hk1], (decide (k = k')) as [->|Hk];
      simpl; try done.
    + by rewrite decide_False, decide_True.
    + by rewrite decide_True, decide_False.
    + rewrite !decide_False by done. f_equal. apply IH.
      by apply elem_of_cons in Hin as [?|?].
Qed.
(** *** [update] *)

Lemma update_cons r k v d : update r ((k, v) :: d) = update (set k v r) d.
Proof. done. Qed.

Lemma update_snoc r d k v : update r (d ++ [(k, v)]) = set k v (update r d).
Proof. unfold update. by rewrite foldl_snoc. Qed.

Lemma wf_update r d : wf r → wf (update r d).
Proof.
  revert r. induction d as [|[k v] d IH]; intros r Hr; [done|].
  rewrite update_cons. by apply IH, wf_set.
Qed.

(** Keys that are all new are appended as they come. *)
Lemma update_new r d : NoDup (keys r ++ keys d) → update r d = r ++ d.
Proof.
  revert r. induction d as [|[k v] d IH]; intros r Hnd.
  - by rewrite (right_id_L [] (++)).
  - assert (k ∉ keys r) as Hk.
    { apply NoDup_app in Hnd as (_ & Hd & _). intros Hin.
      apply (Hd k Hin), list_elem_of_here. }
    rewrite update_cons, set_new by done.
    rewrite IH; [by rewrite <-(assoc_L (++))|].
    unfold keys in *. rewrite fmap_app, <-(assoc_L (++)). done.
Qed.

Lemma update_empty d : wf d → update [] d = d.
Proof. intros Hd. by rewrite update_new. Qed.

(** The argument of [update] wins, key by key. *)
Lemma get_update k r d :
  wf d →
  get k (update r d)
  = match get k d with Some v => Some v | None => get k r end.
Proof.
  induction d as [|[k' v'] d IH] using rev_ind; [done|].
  unfold wf. rewrite keys_snoc. intros [Hk' Hd]%NoDup_snoc.
  rewrite update_snoc, get_app. simpl.
  destruct (decide (k = k')) as [->|Hne].
  - rewrite get_set_eq. by apply get_None in Hk' as ->.
  - rewrite get_set_ne, IH by done. by destruct (get k d).
Qed.

(** The same with an argument [d] that is any sequence of items: the last
    item of a key is the one that stays. *)
Lemma get_update_items k r d :
  get k (update r d)
  = match get k (reverse d) with Some v => Some v | None => get k r end.
Proof.
  induction d as [|[k' v'] d IH] using rev_ind; [done|].
  rewrite update_snoc, reverse_snoc. simpl.
  destruct (decide (k = k')) as [->|Hne].
  - by rewrite get_set_eq.
  - by rewrite get_set_ne.
Qed.

Lemma elem_of_set c k v d : c ∈ set k v d → c = (k, v) ∨ c ∈ d.
Proof.
  induction d as [|[k' v'] d IH]; simpl.
  - intros ->%list_elem_of_singleton. by left.
  - case_decide as Hk.
    + subst k'. intros [->|Hc]%elem_of_cons; [by left|].
      right. by apply list_elem_of_further.
    + intros [->|Hc]%elem_of_cons; [right; apply list_elem_of_here|].
      destruct (IH Hc) as [->|Hd]; [by left|].
      right. by apply list_elem_of_further.
Qed.

(** [update] invents no item. *)
Lemma elem_of_update c r d : c ∈ update r d → c ∈ r ∨ c ∈ d.
Proof.
  induction d as [|[k v] d IH] using rev_ind; [by left|].
  rewrite update_snoc, elem_of_app, list_elem_of_singleton.
  intros [->|Hc]%elem_of_set; [by right; right|].
  destruct (IH Hc) as [?|?]; [by left|by right; left].
Qed.

Lemma keys_update r d :
  wf r → keys (update r d) = first_occurrences (keys r ++ keys d).
Proof.
  intros Hr. induction d as [|[k v] d IH] using rev_ind.
  - simpl. rewrite (right_id_L [] (++)). by rewrite first_occurrences_NoDup.
  - rewrite update_snoc, keys_set, IH.
    rewrite keys_snoc, (assoc_L (++)), first_occurrences_snoc. apply decide_ext.
    by rewrite elem_of_first_occurrences.
Qed.

(** An assignment to a key of [r] that [d] does not have can be made
    before or after [r.update(d)]. *)
Lemma update_set_present k v r d :
  k ∈ keys r → k ∉ keys d → set k v (update r d) = update (set k v r) d.
Proof.
  revert r. induction d as [|[k' v'] d IH]; intros r Hr Hd; [done|].
  apply not_elem_of_cons in Hd as [Hne Hd].
  rewrite !update_cons, IH; [|apply elem_of_keys_set; by right|done].
  by rewrite set_set_present.
Qed.

Lemma update_set k v r d :
  wf d → update r (set k v d) = set k v (update r d).
Proof.
  revert r. induction d as [|[k' v'] d IH]; intros r Hd; [done|].
  apply NoDup_cons in Hd as [Hk' Hd]. simpl.
  destruct (decide (k = k')) as [->|Hne].
  - rewrite !update_cons.
    rewrite <-(set_set_eq k' v v' r) at 1.
    rewrite update_set_present; [done| |done].
    apply elem_of_keys_set. by left.
  - rewrite !update_cons. by apply IH.
Qed.

(** Updating with an updated dictionary, or updating twice. *)
Lemma update_assoc (a b c : PyDict.t K V) :
  wf b → update a (update b c) = update (update a b) c.
Proof.
  intros Hb. induction c as [|[k v] c IH] using rev_ind; [done|].
  rewrite !update_snoc, update_set, IH; [done|]. by apply wf_update.
Qed.
End facts.
End PyDictFacts.

(** ** Strings *)

Lemma string_app_cons (c : ascii) (s t : string) :
  String c s +:+ t = String c (s +:+ t).
Proof. done. Qed.

Lemma string_app_nil_l (t : string) : EmptyString +:+ t = t.
Proof. done. Qed.

Lemma string_app_assoc (s t u : string) : (s +:+ t) +:+ u = s +:+ (t +:+ u).
Proof.
  induction s as [|c s IH]; [done|].
  by rewrite !string_app_cons, IH.
Qed.

Lemma join_cons_cons (sep x y : string) (l : list string) :
  join sep (x :: y :: l) = x +:+ sep +:+ join sep (y :: l).
Proof. done. Qed.

(** Appends associated to the right, with the literals pushed through. *)
Ltac string_normalize :=
  rewrite ?string_app_assoc; rewrite ?string_app_cons, ?string_app_nil_l.

(** ** [dict_to_style] and [to_css] *)

Lemma dict_to_style_cons (kv : string * string) (d : style_dict) :
  dict_to_style (kv :: d) = inline_style_text (kv :: d).
Proof.
  revert kv. induction d as [|kv' d IH]; intros kv.
  - unfold dict_to_style, inline_style_text, declaration_text, style_item.
    simpl. by string_normalize.
  - unfold dict_to_style, inline_style_text in *.
    rewrite !fmap_cons, !join_cons_cons, <-!fmap_cons, <-IH.
    unfold declaration_text, style_item. by string_normalize.
Qed.

(** ** [merge_styles] *)

Section merge_styles.
Import PyDict PyDictFacts.
Implicit Types (d r : style_dict) (ds : list style_dict) (k v : string).

Lemma wf_foldl_update r ds : wf r → wf (foldl update r ds).
Proof.
  revert r. induction ds as [|d ds IH]; intros r Hr; [done|].
  by apply IH, wf_update.
Qed.

Lemma wf_merge_styles ds : wf (merge_styles ds).
Proof. apply wf_foldl_update, NoDup_nil_2. Qed.

Lemma get_foldl_update k r ds :
  Forall wf ds →
  get k (foldl update r ds)
  = match rightmost k ds with Some v => Some v | None => get k r end.
Proof.
  intros Hds. revert r.
  induction Hds as [|d ds Hd _ IH]; intros r; simpl; [done|].
  rewrite IH, get_update by done. by destruct (rightmost k ds).
Qed.

Lemma keys_foldl_update r ds :
  wf r →
  keys (foldl update r ds) = first_occurrences (keys r ++ mjoin (keys <$> ds)).
Proof.
  revert r. induction ds as [|d ds IH]; intros r Hr; simpl.
  - rewrite (right_id_L [] (++)). by rewrite first_occurrences_NoDup.
  - rewrite IH by by apply wf_update.
    by rewrite keys_update, first_occurrences_app_l, (assoc_L (++)).
Qed.

Lemma rightmost_None k ds :
  Forall (λ d, get k d = None) ds → rightmost k ds = None.
Proof. induction 1 as [|d ds Hd _ IH]; simpl; [done|]. by rewrite IH. Qed.

Lemma rightmost_middle k v ds1 d ds2 :
  get k d = Some v → Forall (λ d', get k d' = None) ds2 →
  rightmost k (ds1 ++ d :: ds2) = Some v.
Proof.
  intros Hd Hds2. induction ds1 as [|d1 ds1 IH]; simpl.
  - by rewrite rightmost_None.
  - by rewrite IH.
Qed.
End merge_styles.

(** ** The store *)

Section store_facts.
Context {O : Type}.
Implicit Types (σ : gmap loc O) (l : loc) (o : O).

Lemma bind_Some {A B} (m : M O A) (k : A → M O B) σ a σ' :
  m σ = Some (a, σ') → (m ≫= k) σ = k a σ'.
Proof. intros Hm. unfold mbind, M_bind. by rewrite Hm. Qed.

Lemma load_Some l o σ : σ !! l = Some o → load l σ = Some (o, σ).
Proof. intros Hl. unfold load. by rewrite Hl. Qed.

Lemma store_Some l o o' σ :
  σ !! l = Some o → store l o' σ = Some ((), <[l:=o']> σ).
Proof. intros Hl. unfold store. by rewrite Hl. Qed.

Lemma alloc_fresh o σ :
  ∃ l, alloc o σ = Some (l, <[l:=o]> σ) ∧ σ !! l = None.
Proof.
  eexists. split; [done|]. apply not_elem_of_dom, is_fresh.
Qed.
End store_facts.

(** The loop of [merge_styles]: the result object takes the arguments one
    after the other, no other object changes. *)
Lemma merge_styles_loop (h : gmap loc style_dict) result rv args ds :
  h !! result = Some rv →
  Forall2 (λ l d, l ≠ result ∧ h !! l = Some d) args ds →
  for_each args (λ d,
    dv ← load d; rv ← load result; store result (PyDict.update rv dv)) h
  = Some ((), <[result := foldl PyDict.update rv ds]> h).
Proof.
  intros Hres Hargs. revert rv h Hres Hargs.
  revert ds. induction args as [|l args IH]; intros ds rv h Hres Hargs.
  - apply Forall2_nil_inv_l in Hargs as ->. simpl.
    by rewrite insert_id.
  - apply Forall2_cons_inv_l in Hargs as (d & ds' & [Hne Hl] & Hargs & ->).
    simpl.
    erewrite bind_Some; last first.
    { erewrite bind_Some by by apply load_Some.
      erewrite bind_Some by by apply load_Some.
      by eapply store_Some. }
    erewrite IH; [by rewrite insert_insert_eq|apply lookup_insert_eq|].
    eapply Forall2_impl; [done|]. simpl. intros l' d' [Hne' Hl'].
    by rewrite lookup_insert_ne.
Qed.

(** ** The generator *)

Section generator.
Import PyDict PyDictFacts.
Implicit Types (σ : gmap loc CSSGenerator) (self : loc) (g : CSSGenerator).
Implicit Types (name : string) (styles : style_dict).
Implicit Types (cs regs : PyDict.t string style_dict).

Lemma bind_keywords_ok σ styles :
  keywords_ok styles → bind_keywords styles σ = Some (styles, σ).
Proof. intros Hok. unfold bind_keywords. by rewrite decide_True. Qed.

(** Keyword arguments that cannot be bound: the call raises [TypeError],
    whatever the receiver and the name. *)
Lemma add_class_raises σ self name styles :
  ¬ keywords_ok styles → add_class self name styles σ = None.
Proof.
  intros Hok. unfold add_class, bind_keywords.
  by rewrite decide_False.
Qed.

Lemma add_class_run σ self g name styles :
  σ !! self = Some g →
  keywords_ok styles →
  add_class self name styles σ
  = Some (self, <[self := {| classes := set name styles (classes g) |}]> σ).
Proof.
  intros Hself Hok. unfold add_class.
  erewrite bind_Some by by apply bind_keywords_ok.
  erewrite bind_Some by by apply load_Some.
  by erewrite bind_Some by by eapply store_Some.
Qed.

(** Registering a list of classes is [classes.update] with that list. *)
Lemma add_classes_run σ self g regs :
  σ !! self = Some g →
  Forall keywords_ok regs.*2 →
  add_classes self regs σ
  = Some ((), <[self := {| classes := update (classes g) regs |}]> σ).
Proof.
  revert σ g.
  induction regs as [|[name styles] regs IH]; intros σ g Hself Hok.
  - simpl. rewrite insert_id; [done|]. by destruct g.
  - apply Forall_cons in Hok as [Hstyles Hok].
    unfold add_classes in *. simpl.
    erewrite bind_Some; last first.
    { by erewrite bind_Some by by apply add_class_run. }
    erewrite IH by first [apply lookup_insert_eq|done].
    by rewrite insert_insert_eq.
Qed.

(** The loop of [to_css] appends one line for each class, in order. *)
Lemma css_lines_fmap cs : css_lines cs = css_line <$> cs.
Proof.
  unfold css_lines.
  induction cs as [|c cs IH] using rev_ind; [done|].
  by rewrite foldl_snoc, fmap_app, IH.
Qed.

(** The text between the braces of a line is the inline style of the
    class. *)
Lemma css_line_dict_to_style (item : string * style_dict) :
  css_line item = "." +:+ item.1 +:+ " { " +:+ dict_to_style item.2 +:+ " }".
Proof. unfold css_line, dict_to_style. by string_normalize. Qed.

Lemma css_line_rule_block (item : string * style_dict) :
  item.2 ≠ [] → css_line item = rule_block item.
Proof.
  intros Hne. rewrite css_line_dict_to_style. unfold rule_block.
  destruct item as [name [|kv d]]; [done|]. simpl.
  by rewrite dict_to_style_cons.
Qed.

Lemma css_line_css_block (item : string * style_dict) :
  css_line item = css_block item.
Proof.
  unfold css_block. case_decide as Hempty; [|by apply css_line_rule_block].
  unfold css_line. rewrite Hempty. simpl. by string_normalize.
Qed.

Lemma to_css_run σ self g :
  σ !! self = Some g →
  to_css self σ = Some (join newline (css_line <$> classes g), σ).
Proof.
  intros Hself. unfold to_css.
  erewrite bind_Some by by apply load_Some. by rewrite css_lines_fmap.
Qed.

(** After [cs[k] = v] the key [k] sits at one place, with the value [v],
    and the other items are those of [cs], in their order. *)
Lemma set_split {V} (k : string) (v : V) (cs : PyDict.t string V) :
  wf cs →
  ∃ pre post,
    set k v cs = pre ++ (k, v) :: post
    ∧ (k ∉ keys pre) ∧ (k ∉ keys post)
    ∧ filter (λ c, c.1 ≠ k) cs = pre ++ post.
Proof.
  induction cs as [|[k' v'] cs IH]; intros Hwf.
  - exists [], []. split_and!; try done; apply not_elem_of_nil.
  - apply wf_cons in Hwf as [Hk' Hwf]. simpl.
    destruct (decide (k = k')) as [->|Hne].
    + exists [], cs. split_and!; [done|apply not_elem_of_nil|done|].
      rewrite filter_cons_False by (simpl; tauto).
      by apply filter_other_keys.
    + destruct (IH Hwf) as (pre & post & -> & Hpre & Hpost & Hfilter).
      exists ((k', v') :: pre), post. split_and!; [done| |done|].
      * apply not_elem_of_cons. done.
      * rewrite filter_cons_True by (simpl; congruence).
        by rewrite Hfilter.
Qed.
End generator.

(** * The claims *)

(** C1, as the code has it.  For the empty declaration [dict_to_style]
    returns the semicolon that it appends to every result, and nothing
    else. *)
Theorem dict_to_style_empty : dict_to_style [] = ";".
Proof. reflexivity. Qed.

(** C1 fails as stated: the result for the empty declaration is one
    character long, it is not the empty string. *)
Lemma dict_to_style_empty_is_not_empty_string :
  String.eqb (dict_to_style []) EmptyString = false
  ∧ String.length (dict_to_style []) = 1.
Proof. split; reflexivity. Qed.

(** C2, as the code has it.  [add_class] does not look at the name: on a
    generator, for every name, the empty one too, the call with a
    declaration that can be passed as keyword arguments (each property
    once, none called [self] or [name]) returns and leaves the declaration
    registered under that name; with any other declaration the call raises
    the [TypeError] of the argument binding, whatever the name. *)
Theorem add_class_registers_any_name
    (σ : gmap loc CSSGenerator) (self : loc) (g : CSSGenerator)
    (name : string) (styles : style_dict) :
  σ !! self = Some g →
  (keywords_ok styles →
   ∃ σ' g',
     add_class self name styles σ = Some (self, σ')
     ∧ σ' !! self = Some g'
     ∧ PyDict.get name (classes g') = Some styles)
  ∧ (¬ keywords_ok styles → add_class self name styles σ = None).
Proof.
  intros Hself. split.
  - intros Hok. eexists _, _. split_and!.
    + by apply add_class_run.
    + apply lookup_insert_eq.
    + simpl. apply PyDictFacts.get_set_eq.
  - apply add_class_raises.
Qed.

(** On a generator with no classes, the name [btn]. *)
Lemma add_class_registers_any_name_witness :
  ∃ σ' g',
    add_class 1%positive "btn" [("color", "red")]
      {[ 1%positive := {| classes := [] |} ]} = Some (1%positive, σ')
    ∧ σ' !! 1%positive = Some g'
    ∧ PyDict.get "btn" (classes g') = Some [("color", "red")].
Proof.
  destruct (add_class_registers_any_name
              {[ 1%positive := {| classes := [] |} ]} 1%positive
              {| classes := [] |} "btn" [("color", "red")])
    as [Hok _]; [reflexivity|].
  apply Hok. compute_done.
Defined.

(** C2 fails as stated: with the empty string as the class name the call
    returns, no error is raised, and the declaration is registered under
    the empty name. *)
Lemma add_class_empty_name_returns :
  add_class 1%positive EmptyString [("color", "red")]
    {[ 1%positive := {| classes := [] |} ]}
  = Some (1%positive,
          {[ 1%positive := {| classes := [(EmptyString, [("color", "red")])] |} ]}).
Proof. vm_compute. reflexivity. Qed.

(** C3. The element [p] whose [style] attribute is the inline style of
    the declaration [color: red], [font-size: 16px] and whose one child is
    the text leaf [Hi & bye] is built without error and serializes to the
    opening tag [p] with the attribute [style], its value
    [color: red; font-size: 16px;] between double quotes, then the text
    [Hi &amp; bye], then the closing tag. *)
Theorem serialize_end_to_end :
  ∃ node,
    makeElement "p"
      [("style", dict_to_style [("color", "red"); ("font-size", "16px")])]
      [TextLeaf "Hi & bye"] = inr node
    ∧ serialize node
      = "<p style=" +:+ dquote +:+ "color: red; font-size: 16px;" +:+ dquote
        +:+ ">Hi &amp; bye</p>".
Proof. eexists. split; [reflexivity|]. vm_compute. reflexivity. Qed.

(** C4. [merge_styles] concatenates its arguments in argument order with
    the rightmost argument winning key by key.  For dictionaries
    [style_dicts]: the result is a dictionary; its keys are the keys of
    the arguments, concatenated in argument order, each at its first
    occurrence; a key is bound to the value it has in the rightmost
    argument that contains it; a key of no argument is not bound; and the
    merge of no dictionaries is the empty dictionary. *)
Theorem merge_styles_rightmost_wins (style_dicts : list style_dict) :
  Forall PyDict.wf style_dicts →
  PyDict.wf (merge_styles style_dicts)
  ∧ PyDict.keys (merge_styles style_dicts)
    = first_occurrences (mjoin (PyDict.keys <$> style_dicts))
  ∧ (∀ left d right k v,
       style_dicts = left ++ d :: right →
       PyDict.get k d = Some v →
       Forall (λ d', PyDict.get k d' = None) right →
       PyDict.get k (merge_styles style_dicts) = Some v)
  ∧ (∀ k, Forall (λ d, PyDict.get k d = None) style_dicts →
          PyDict.get k (merge_styles style_dicts) = None)
  ∧ merge_styles [] = [].
Proof.
  intros Hwf. split_and!.
  - apply wf_merge_styles.
  - unfold merge_styles. rewrite keys_foldl_update; [done|apply NoDup_nil_2].
  - intros left d right k v -> Hd Hright. unfold merge_styles.
    by rewrite get_foldl_update, (rightmost_middle k v).
  - intros k Hk. unfold merge_styles.
    by rewrite get_foldl_update, rightmost_None.
  - done.
Qed.

(** Two declarations that share the key [color]. *)
Lemma merge_styles_rightmost_wins_witness :
  let A := [("color", "red"); ("margin", "0")] in
  let B := [("padding", "4px"); ("color", "blue")] in
  PyDict.get "color" (merge_styles [A; B]) = Some "blue"
  ∧ PyDict.keys (merge_styles [A; B]) = ["color"; "margin"; "padding"].
Proof.
  intros A B.
  assert (Forall PyDict.wf [A; B]) as Hwf by compute_done.
  destruct (merge_styles_rightmost_wins [A; B] Hwf) as (_ & Hkeys & Hget & _).
  split.
  - apply (Hget [A] B []); [done|done|constructor].
  - by rewrite Hkeys.
Defined.

(** C5. Merging is associative, key order included: for dictionaries [A],
    [B] and [C], whatever keys they share, merging [A] with the merge of
    [B] and [C], merging the merge of [A] and [B] with [C], and merging
    the three at once give the same dictionary. *)
Theorem merge_styles_assoc (A B C : style_dict) :
  PyDict.wf A → PyDict.wf B → PyDict.wf C →
  merge_styles [merge_styles [A; B]; C] = merge_styles [A; B; C]
  ∧ merge_styles [A; merge_styles [B; C]] = merge_styles [A; B; C].
Proof.
  intros HA HB HC. unfold merge_styles. simpl.
  rewrite (PyDictFacts.update_empty A), (PyDictFacts.update_empty B) by done.
  rewrite PyDictFacts.update_empty by by apply PyDictFacts.wf_update.
  split; [done|]. by apply PyDictFacts.update_assoc.
Qed.

(** Three declarations with [color] in all of them and [margin] in two. *)
Lemma merge_styles_assoc_witness :
  let A := [("color", "red"); ("margin", "0")] in
  let B := [("padding", "4px"); ("color", "blue")] in
  let C := [("margin", "1px"); ("border", "none"); ("color", "green")] in
  merge_styles [merge_styles [A; B]; C] = merge_styles [A; B; C]
  ∧ merge_styles [A; merge_styles [B; C]] = merge_styles [A; B; C].
Proof.
  intros A B C.
  apply (merge_styles_assoc A B C); compute_done.
Defined.

(** C6, as the code has it.  [to_css] prints the registered classes in
    registration order, one block for each, the blocks a newline apart.
    After any sequence of registrations on a new generator, with
    declarations that can be passed as keyword arguments (each property
    once, none called [self] or [name]), the output has a block for each
    name that was registered, the names in the order in which they were
    first registered, each with the declaration of its last registration
    (with distinct names: one block for each registration, in order).  A
    block is a dot, the name, and between braces the inline style of the
    declaration, the text [dict_to_style] gives for it: for a declaration
    with properties that is [.name { prop: value; ... }], the properties
    in insertion order, each followed by a semicolon; for an empty
    declaration it is [.name { ; }]. *)
Theorem to_css_in_registration_order
    (σ : gmap loc CSSGenerator) (regs : list (string * style_dict)) :
  Forall keywords_ok regs.*2 →
  ∃ css σ' (cs : list (string * style_dict)),
    (g ← CSSGenerator_new; add_classes g regs;; to_css g) σ = Some (css, σ')
    ∧ css = join newline (css_block <$> cs)
    ∧ css = join newline
              ((λ c, "." +:+ c.1 +:+ " { " +:+ dict_to_style c.2 +:+ " }")
                 <$> cs)
    ∧ cs.*1 = first_occurrences regs.*1
    ∧ (∀ name, PyDict.get name cs = PyDict.get name (reverse regs))
    ∧ (NoDup regs.*1 → cs = regs).
Proof.
  intros Hok.
  destruct (alloc_fresh {| classes := [] |} σ) as (g & Halloc & _).
  eexists _, _, (PyDict.update [] regs). split_and!.
  - unfold CSSGenerator_new. erewrite bind_Some by done.
    erewrite bind_Some
      by (apply add_classes_run; [apply lookup_insert_eq|done]).
    by erewrite to_css_run by apply lookup_insert_eq.
  - f_equal. apply list_fmap_ext. intros _ c _. apply css_line_css_block.
  - f_equal. apply list_fmap_ext. intros _ c _.
    apply css_line_dict_to_style.
  - apply (PyDictFacts.keys_update []), NoDup_nil_2.
  - intros name. rewrite PyDictFacts.get_update_items.
    by destruct (PyDict.get name (reverse regs)).
  - apply PyDictFacts.update_empty.
Qed.

(** Four registrations, the name [b] twice and the name [c] with no
    property: [b] keeps the first place and shows its second declaration,
    [c] has a semicolon alone. *)
Lemma to_css_in_registration_order_witness :
  ∃ σ',
    (g ← CSSGenerator_new;
     add_classes g [("b", [("color", "red")]);
                    ("a", [("padding", "4px")]);
                    ("c", []);
                    ("b", [("color", "blue"); ("margin", "0")])];;
     to_css g) ∅
    = Some (".b { color: blue; margin: 0; }" +:+ newline
            +:+ ".a { padding: 4px; }" +:+ newline +:+ ".c { ; }", σ').
Proof.
  destruct (to_css_in_registration_order ∅
              [("b", [("color", "red")]);
               ("a", [("padding", "4px")]);
               ("c", []);
               ("b", [("color", "blue"); ("margin", "0")])])
    as (css & σ' & cs & Hrun & _); [compute_done|].
  exists σ'. rewrite Hrun. f_equal. f_equal.
  vm_compute in Hrun. by injection Hrun as <- _.
Defined.

(** C6 fails as stated: a class registered with no property is printed
    with a semicolon alone between the braces, which is not the shape
    [.name { prop: value; ... }] with no property in it. *)
Lemma to_css_empty_rule_set_block :
  (g ← CSSGenerator_new; add_classes g [("b", [])];; to_css g) ∅
  = Some (".b { ; }", {[ 1%positive := {| classes := [("b", [])] |} ]})
  ∧ rule_block ("b", []) = ".b {  }"
  ∧ String.eqb ".b { ; }" (rule_block ("b", [])) = false.
Proof. vm_compute. done. Qed.

(** C7, as the code has it.  Registering a name again overwrites its
    rule set.  On a generator with any classes, after [add_class] with
    the name [x] and [D1] and then with [x] and [D2], two declarations
    that can be passed as keyword arguments (each property once, none
    called [self] or [name]), the output of [to_css] has one block for
    [x]: it is the block of [D2], the blocks before it and after it are
    those of the other classes of the generator, in their order, none of
    them under the name [x]; and the output is the one that registering
    [D2] alone gives, so [D1] has left no trace. *)
Theorem add_class_twice_overwrites
    (σ : gmap loc CSSGenerator) (self : loc) (g : CSSGenerator)
    (x : string) (D1 D2 : style_dict) :
  σ !! self = Some g →
  PyDict.wf (classes g) →
  keywords_ok D1 →
  keywords_ok D2 →
  ∃ css σ' pre post,
    (add_class self x D1;; add_class self x D2;; to_css self) σ
    = Some (css, σ')
    ∧ css = join newline
              ((css_line <$> pre)
               ++ ["." +:+ x +:+ " { " +:+ dict_to_style D2 +:+ " }"]
               ++ (css_line <$> post))
    ∧ (x ∉ pre.*1) ∧ (x ∉ post.*1)
    ∧ filter (λ c, c.1 ≠ x) (classes g) = pre ++ post
    ∧ (add_class self x D2;; to_css self) σ = Some (css, σ').
Proof.
  intros Hself Hwf HD1 HD2.
  destruct (set_split x D2 (classes g) Hwf)
    as (pre & post & Hset & Hpre & Hpost & Hrest).
  eexists _, _, pre, post. split_and!.
  - erewrite bind_Some by by apply add_class_run.
    erewrite bind_Some by (apply add_class_run; [apply lookup_insert_eq|done]).
    erewrite to_css_run by apply lookup_insert_eq. done.
  - simpl. rewrite PyDictFacts.set_set_eq, Hset, fmap_app, fmap_cons.
    by rewrite css_line_dict_to_style.
  - done.
  - done.
  - done.
  - erewrite bind_Some by by apply add_class_run.
    erewrite to_css_run by apply lookup_insert_eq.
    simpl. by rewrite PyDictFacts.set_set_eq, insert_insert_eq.
Qed.

(** A generator that already has the classes [x] and [y]: the block of
    [x] keeps its place, before that of [y], and shows the last
    declaration. *)
Lemma add_class_twice_overwrites_witness :
  ∃ σ',
    (add_class 1%positive "x" [("color", "red")];;
     add_class 1%positive "x" [("color", "blue")];;
     to_css 1%positive)
      {[ 1%positive := {| classes := [("x", [("margin", "0")]);
                                      ("y", [("padding", "0")])] |} ]}
    = Some (".x { color: blue; }" +:+ newline +:+ ".y { padding: 0; }", σ').
Proof.
  destruct (add_class_twice_overwrites
              {[ 1%positive := {| classes := [("x", [("margin", "0")]);
                                              ("y", [("padding", "0")])] |} ]}
              1%positive
              {| classes := [("x", [("margin", "0")]);
                             ("y", [("padding", "0")])] |}
              "x" [("color", "red")] [("color", "blue")])
    as (css & σ' & pre & post & Hrun & _);
    [reflexivity|compute_done|compute_done|compute_done|].
  exists σ'. rewrite Hrun. f_equal. f_equal.
  vm_compute in Hrun. by injection Hrun as <- _.
Defined.

(** C7 fails as stated: with a second declaration that has a property
    called [name], the first call registers [x], the second call raises
    and registers nothing, and the stylesheet still shows the first
    declaration. *)
Lemma add_class_twice_second_refused :
  let σ : gmap loc CSSGenerator := {[ 1%positive := {| classes := [] |} ]} in
  let σ1 : gmap loc CSSGenerator :=
    {[ 1%positive := {| classes := [("x", [("color", "red")])] |} ]} in
  add_class 1%positive "x" [("color", "red")] σ = Some (1%positive, σ1)
  ∧ add_class 1%positive "x" [("name", "y")] σ1 = None
  ∧ to_css 1%positive σ1 = Some (".x { color: red; }", σ1).
Proof. vm_compute. done. Qed.

(** C8. For a declaration that is not empty, [dict_to_style] gives
    [prop: value; prop2: value2;]: the properties in insertion order, each
    followed by a semicolon, the last one too, and a blank between one
    property and the next. *)
Theorem dict_to_style_shape (style_dict : style_dict) :
  style_dict ≠ [] →
  dict_to_style style_dict = join " " (declaration_text <$> style_dict).
Proof.
  destruct style_dict as [|kv d]; [done|]. intros _. apply dict_to_style_cons.
Qed.

(** A declaration of three properties. *)
Lemma dict_to_style_shape_witness :
  dict_to_style [("color", "red"); ("font-size", "16px"); ("margin", "0")]
  = "color: red; font-size: 16px; margin: 0;".
Proof.
  rewrite (dict_to_style_shape
             [("color", "red"); ("font-size", "16px"); ("margin", "0")]);
    [reflexivity|discriminate].
Defined.

(** C9. [merge_styles] does not mutate its arguments.  Called in any
    store with references to dictionaries (the same one may be passed
    more than once), it returns a reference to a dictionary that did not
    exist before the call; every argument holds after the call what it
    held before, and so does every other object of the store; the new
    dictionary holds the merge of the arguments' values. *)
Theorem merge_styles_leaves_arguments
    (h : gmap loc style_dict) (style_dicts : list loc)
    (values : list style_dict) :
  Forall2 (λ l d, h !! l = Some d) style_dicts values →
  ∃ result h',
    Heap.merge_styles style_dicts h = Some (result, h')
    ∧ h !! result = None
    ∧ Forall2 (λ l d, h' !! l = Some d) style_dicts values
    ∧ (∀ l, is_Some (h !! l) → h' !! l = h !! l)
    ∧ h' !! result = Some (merge_styles values).
Proof.
  intros Hargs.
  destruct (alloc_fresh ([] : style_dict) h) as (result & Halloc & Hfresh).
  exists result, (<[result := merge_styles values]> h).
  assert (∀ l, is_Some (h !! l) → l ≠ result) as Hother.
  { intros l [d Hl] ->. by rewrite Hfresh in Hl. }
  split_and!.
  - unfold Heap.merge_styles. erewrite bind_Some by done.
    erewrite bind_Some; last first.
    { apply (merge_styles_loop _ result [] style_dicts values).
      - apply lookup_insert_eq.
      - eapply Forall2_impl; [done|]. simpl. intros l d Hl.
        assert (l ≠ result) by by apply Hother.
        by rewrite lookup_insert_ne. }
    by rewrite insert_insert_eq.
  - done.
  - eapply Forall2_impl; [done|]. simpl. intros l d Hl.
    rewrite lookup_insert_ne; [done|]. apply not_eq_sym. by apply Hother.
  - intros l Hl. rewrite lookup_insert_ne; [done|].
    apply not_eq_sym. by apply Hother.
  - apply lookup_insert_eq.
Qed.

(** Two dictionaries in the store, the first one passed twice. *)
Lemma merge_styles_leaves_arguments_witness :
  let A := [("color", "red"); ("margin", "0")] in
  let B := [("padding", "4px"); ("color", "blue")] in
  let h : gmap loc style_dict := {[ 1%positive := A; 2%positive := B ]} in
  ∃ result h',
    Heap.merge_styles [1%positive; 2%positive; 1%positive] h
    = Some (result, h')
    ∧ h !! result = None
    ∧ h' !! 1%positive = Some A
    ∧ h' !! 2%positive = Some B
    ∧ h' !! result = Some [("color", "red"); ("margin", "0"); ("padding", "4px")].
Proof.
  intros A B h.
  destruct (merge_styles_leaves_arguments h
              [1%positive; 2%positive; 1%positive] [A; B; A])
    as (result & h' & Hrun & Hfresh & Hargs & Hframe & Hres).
  { repeat constructor. }
  exists result, h'. split_and!; [done|done| | |done].
  - by apply Forall2_cons_1 in Hargs as [? _].
  - apply Forall2_cons_1 in Hargs as [_ Hargs].
    by apply Forall2_cons_1 in Hargs as [? _].
Defined.

(** C10, as the code has it.  [add_class] returns its receiver: called
    on the generator at [self] with a declaration that can be passed as
    keyword arguments (each property once, none called [self] or [name]),
    it returns the reference [self], with the class registered on that
    same object, so a call chained on the result is a call on the
    receiver. *)
Theorem add_class_returns_self
    (σ : gmap loc CSSGenerator) (self : loc) (g : CSSGenerator)
    (name : string) (styles : style_dict) :
  σ !! self = Some g →
  keywords_ok styles →
  add_class self name styles σ
  = Some (self,
          <[self := {| classes := PyDict.set name styles (classes g) |}]> σ)
  ∧ ∀ name' styles',
      (r ← add_class self name styles; add_class r name' styles') σ
      = (add_class self name styles;; add_class self name' styles') σ.
Proof.
  intros Hself Hok. split; [by apply add_class_run|].
  intros name' styles'.
  by rewrite !(bind_Some _ _ _ _ _
                 (add_class_run _ _ _ name styles Hself Hok)).
Qed.

(** Two chained registrations end on the one object. *)
Lemma add_class_returns_self_witness :
  (r ← add_class 1%positive "a" [("color", "red")];
   add_class r "b" [("margin", "0")])
    {[ 1%positive := {| classes := [] |} ]}
  = Some (1%positive,
          {[ 1%positive := {| classes := [("a", [("color", "red")]);
                                          ("b", [("margin", "0")])] |} ]}).
Proof.
  destruct (add_class_returns_self {[ 1%positive := {| classes := [] |} ]}
              1%positive {| classes := [] |} "a" [("color", "red")])
    as [_ Hchain]; [reflexivity|compute_done|].
  rewrite Hchain. vm_compute. reflexivity.
Defined.

(** C10 fails as stated: called with a declaration that has a property
    called [name], or one called [self], [add_class] raises and returns
    nothing. *)
Lemma add_class_name_keyword_raises :
  add_class 1%positive "x" [("name", "y")]
    {[ 1%positive := {| classes := [] |} ]} = None
  ∧ add_class 1%positive "x" [("color", "red"); ("self", "y")]
      {[ 1%positive := {| classes := [] |} ]} = None.
Proof. vm_compute. done. Qed.

(** * Further properties of the code

    What follows goes beyond the claims: more about [merge_styles] and
    [dict_to_style], about [add_class] and [to_css], and about the class
    libraries of [CSSGenerator]. *)

(** ** More about dictionaries *)

Module PyDictMore.
Import PyDict PyDictFacts.
Section more.
Context {K V : Type} `{EqDecision K}.
Implicit Types (d r : PyDict.t K V) (k : K) (v : V).

(** An assignment of the value that a key already has changes nothing. *)
Lemma set_id k v d : get k d = Some v → set k v d = d.
Proof.
  induction d as [|[k' v'] d IH]; simpl; [done|].
  case_decide; [by intros [= ->]|]. intros Hd. by rewrite IH.
Qed.

Lemma elem_of_get k v d : wf d → (k, v) ∈ d → get k d = Some v.
Proof.
  induction d as [|[k' v'] d IH]; intros Hwf Hin.
  - by apply elem_of_nil in Hin.
  - apply wf_cons in Hwf as [Hk' Hwf]. simpl.
    apply elem_of_cons in Hin as [[= -> ->]|Hin]; [by rewrite decide_True|].
    rewrite decide_False; [by apply IH|].
    intros ->. apply Hk'. unfold keys.
    by apply (list_elem_of_fmap_2 fst) in Hin.
Qed.

(** Items that a dictionary already has leave it as it is. *)
Lemma update_sub r d :
  (∀ k v, (k, v) ∈ d → get k r = Some v) → update r d = r.
Proof.
  induction d as [|[k v] d IH]; intros Hsub; [done|].
  rewrite update_cons, set_id by apply Hsub, list_elem_of_here.
  apply IH. intros k' v' Hin. by apply Hsub, list_elem_of_further.
Qed.

Lemma update_idem r d : wf d → update (update r d) d = update r d.
Proof.
  intros Hd. apply update_sub. intros k v Hin.
  by rewrite get_update, (elem_of_get k v d).
Qed.

Lemma get_update_other k r d : k ∉ keys d → get k (update r d) = get k r.
Proof.
  intros Hk. rewrite get_update_items.
  assert (get k (reverse d) = None) as ->; [|done].
  apply get_None. unfold keys. rewrite fmap_reverse. by rewrite elem_of_reverse.
Qed.

(** The keys that a dictionary has stay where they are. *)
Lemma keys_update_prefix r d : ∃ new, keys (update r d) = keys r ++ new.
Proof.
  induction d as [|[k v] d [new IH]] using rev_ind.
  - exists []. by rewrite (right_id_L [] (++)).
  - rewrite update_snoc, keys_set, IH. case_decide.
    + by exists new.
    + exists (new ++ [k]). by rewrite (assoc_L (++)).
Qed.

Lemma length_set k v d :
  length (set k v d)
  = if decide (k ∈ keys d) then length d else S (length d).
Proof.
  rewrite <-!(length_fmap fst). fold (keys (set k v d)). fold (keys d).
  rewrite keys_set. case_decide; [done|].
  rewrite length_app. simpl. lia.
Qed.

Lemma update_foldl_update (a b : PyDict.t K V) (ds : list (PyDict.t K V)) :
  wf b → update a (foldl update b ds) = foldl update (update a b) ds.
Proof.
  revert b. induction ds as [|d ds IH]; intros b Hb; [done|]. simpl.
  rewrite IH by by apply wf_update. by rewrite update_assoc.
Qed.

Lemma foldl_update_new r (ds : list (PyDict.t K V)) :
  NoDup (keys r ++ mjoin (keys <$> ds)) → foldl update r ds = r ++ mjoin ds.
Proof.
  revert r. induction ds as [|d ds IH]; intros r Hnd; simpl.
  - by rewrite (right_id_L [] (++)).
  - simpl in Hnd. rewrite (assoc_L (++)) in Hnd.
    rewrite update_new by by apply NoDup_app in Hnd as [? _].
    rewrite IH; [by rewrite (assoc_L (++))|].
    unfold keys at 1. by rewrite fmap_app.
Qed.
End more.

Lemma first_occurrences_absorb `{EqDecision A} (l l' : list A) :
  NoDup l → (∀ x, x ∈ l' → x ∈ l) → first_occurrences (l ++ l') = l.
Proof.
  intros Hl. induction l' as [|x l' IH] using rev_ind; intros Hsub.
  - rewrite (right_id_L [] (++)). by apply first_occurrences_NoDup.
  - rewrite (assoc_L (++)), first_occurrences_snoc.
    rewrite decide_True.
    + apply IH. intros y Hy. apply Hsub, elem_of_app. by left.
    + apply elem_of_app. left. apply Hsub, elem_of_app. right.
      apply list_elem_of_here.
Qed.
End PyDictMore.

(** ** More about [merge_styles] and [dict_to_style] *)

Lemma join_app (sep : string) (l1 l2 : list string) :
  l1 ≠ [] → l2 ≠ [] →
  join sep (l1 ++ l2) = join sep l1 +:+ sep +:+ join sep l2.
Proof.
  intros Hl1 Hl2. induction l1 as [|x [|y l1] IH]; [done| |].
  - destruct l2 as [|z l2]; [done|]. simpl ((_ ++ _)).
    by rewrite join_cons_cons.
  - simpl ((_ ++ _)). rewrite !join_cons_cons.
    simpl ((_ ++ _)) in IH. rewrite IH by done. by string_normalize.
Qed.

Lemma dict_to_style_app (A B : style_dict) :
  A ≠ [] → B ≠ [] →
  dict_to_style (A ++ B) = dict_to_style A +:+ " " +:+ dict_to_style B.
Proof.
  intros HA HB. destruct A as [|a A]; [done|]. destruct B as [|b B]; [done|].
  simpl ((_ ++ _)). rewrite !dict_to_style_cons. unfold inline_style_text.
  rewrite <-join_app by done. by rewrite <-fmap_app.
Qed.

(** The store-level [merge_styles], run: the result is the location that
    [alloc] picks, and it holds the merge of the arguments' values. *)
Lemma heap_merge_styles_run (h : gmap loc style_dict) args values :
  Forall2 (λ l d, h !! l = Some d) args values →
  Heap.merge_styles args h
  = Some (fresh (dom h), <[fresh (dom h) := merge_styles values]> h).
Proof.
  intros Hargs. set (result := fresh (dom h)).
  assert (h !! result = None) as Hfresh by apply not_elem_of_dom, is_fresh.
  unfold Heap.merge_styles.
  erewrite bind_Some by (unfold alloc; reflexivity).
  erewrite bind_Some; last first.
  { apply (merge_styles_loop _ result [] args values).
    - apply lookup_insert_eq.
    - eapply Forall2_impl; [done|]. simpl. intros l d Hl.
      assert (l ≠ result) by (intros ->; by rewrite Hfresh in Hl).
      by rewrite lookup_insert_ne. }
  by rewrite insert_insert_eq.
Qed.

Lemma merge_styles_two_disjoint (A B : style_dict) :
  PyDict.wf A → PyDict.wf B →
  (∀ k, k ∈ PyDict.keys A → k ∉ PyDict.keys B) →
  merge_styles [A; B] = A ++ B.
Proof.
  intros HA HB Hdisj. unfold merge_styles.
  rewrite PyDictMore.foldl_update_new.
  - simpl. by rewrite (right_id_L [] (++)).
  - simpl. rewrite (right_id_L [] (++)). by apply NoDup_app.
Qed.

Lemma foldl_update_filter (r : style_dict) (ds : list style_dict) :
  foldl PyDict.update r (filter (λ d, d ≠ []) ds) = foldl PyDict.update r ds.
Proof.
  revert r. induction ds as [|d ds IH]; intros r; [done|].
  destruct (decide (d = [])) as [->|Hd].
  - rewrite filter_cons_False by (intros Hne; by apply Hne). apply IH.
  - rewrite filter_cons_True by done. apply IH.
Qed.

(** X1. Empty dictionaries among the arguments of [merge_styles] make no
    difference: the result is the one for the arguments that are not
    empty. *)
Theorem merge_styles_ignores_empty (style_dicts : list style_dict) :
  merge_styles (filter (λ d, d ≠ []) style_dicts) = merge_styles style_dicts.
Proof. apply foldl_update_filter. Qed.

(** X2. Passing the last dictionary once more changes nothing: after any
    arguments, [B, B] merges to what [B] alone merges to; so
    [merge_styles(B, B)] has the content of [B]. *)
Theorem merge_styles_repeated_argument
    (style_dicts : list style_dict) (B : style_dict) :
  PyDict.wf B →
  merge_styles (style_dicts ++ [B; B]) = merge_styles (style_dicts ++ [B])
  ∧ merge_styles [B; B] = B.
Proof.
  intros HB. unfold merge_styles. rewrite !foldl_app. simpl.
  rewrite !PyDictMore.update_idem by done.
  by rewrite PyDictFacts.update_empty.
Qed.

(** The declaration [B] shares [color] with what comes before it. *)
Lemma merge_styles_repeated_argument_witness :
  let A := [("color", "red"); ("margin", "0")] in
  let B := [("padding", "4px"); ("color", "blue")] in
  merge_styles ([A] ++ [B; B]) = merge_styles ([A] ++ [B])
  ∧ merge_styles [B; B] = B.
Proof.
  intros A B. apply (merge_styles_repeated_argument [A] B). compute_done.
Defined.

(** X3. Dictionaries that share no key are merged by concatenation: when
    every key occurs once in all the arguments together, the result is the
    items of the arguments, one argument after the other.  A single
    dictionary is copied as it is. *)
Theorem merge_styles_disjoint (style_dicts : list style_dict) :
  NoDup (mjoin (PyDict.keys <$> style_dicts)) →
  merge_styles style_dicts = mjoin style_dicts.
Proof.
  intros Hnd. unfold merge_styles.
  by rewrite PyDictMore.foldl_update_new.
Qed.

(** The two merges of the page of [04_style_dictionaries.py] that compose
    dictionaries with keys of their own. *)
Lemma merge_styles_disjoint_witness :
  merge_styles
    [ [("padding", "20px"); ("border-radius", "12px")];
      [("background", "linear-gradient(135deg, #667eea 0%, #764ba2 100%)")];
      [("color", "white"); ("text-align", "center"); ("font-weight", "600");
       ("font-size", "18px")] ]
  = [("padding", "20px"); ("border-radius", "12px");
     ("background", "linear-gradient(135deg, #667eea 0%, #764ba2 100%)");
     ("color", "white"); ("text-align", "center"); ("font-weight", "600");
     ("font-size", "18px")]
  ∧ merge_styles [[("color", "red")]] = [("color", "red")].
Proof.
  split; rewrite merge_styles_disjoint; first [reflexivity|compute_done].
Defined.

(** X4. Overriding properties that the first dictionary has keeps its
    property order and count: when every key of the later arguments is a
    key of the first argument [A], the result has the keys of [A], in the
    order of [A]. *)
Theorem merge_styles_override_keeps_order
    (A : style_dict) (overrides : list style_dict) :
  PyDict.wf A →
  Forall (λ d, ∀ k, k ∈ PyDict.keys d → k ∈ PyDict.keys A) overrides →
  PyDict.keys (merge_styles (A :: overrides)) = PyDict.keys A
  ∧ length (merge_styles (A :: overrides)) = length A.
Proof.
  intros HA Hsub.
  assert (PyDict.keys (merge_styles (A :: overrides)) = PyDict.keys A) as Hk.
  { unfold merge_styles. rewrite keys_foldl_update by apply NoDup_nil_2.
    simpl. apply PyDictMore.first_occurrences_absorb; [done|].
    intros k (ks & Hk & Hks)%list_elem_of_join.
    apply list_elem_of_fmap in Hks as (d & -> & Hd).
    rewrite Forall_forall in Hsub. by apply (Hsub d). }
  split; [done|].
  unfold PyDict.keys in Hk.
  by rewrite <-(length_fmap fst), Hk, length_fmap.
Qed.

(** The card of the page of [04_style_dictionaries.py]: [CARD_STYLE] with
    another [background], which stays the first property. *)
Lemma merge_styles_override_keeps_order_witness :
  let CARD_STYLE :=
    [("background", "white"); ("border", "1px solid #e5e7eb");
     ("border-radius", "16px"); ("padding", "30px");
     ("margin", "20px auto"); ("max-width", "700px");
     ("box-shadow", "0 4px 6px rgba(0,0,0,0.1)")] in
  let override :=
    [("background", "linear-gradient(to bottom, #ffffff, #f9fafb)")] in
  PyDict.keys (merge_styles [CARD_STYLE; override]) = PyDict.keys CARD_STYLE
  ∧ length (merge_styles [CARD_STYLE; override]) = 7.
Proof.
  intros CARD_STYLE override.
  apply (merge_styles_override_keeps_order CARD_STYLE [override]).
  - compute_done.
  - apply Forall_singleton. intros k ->%list_elem_of_singleton.
    apply list_elem_of_here.
Defined.

(** X5. Arguments can be merged in groups: the merge of a first group of
    dictionaries and the merge of a second group, merged, give what all
    the dictionaries give when merged at once. *)
Theorem merge_styles_grouping (first second : list style_dict) :
  merge_styles [merge_styles first; merge_styles second]
  = merge_styles (first ++ second).
Proof.
  unfold merge_styles at 1. simpl.
  rewrite PyDictFacts.update_empty by apply wf_merge_styles.
  unfold merge_styles.
  rewrite PyDictMore.update_foldl_update by apply NoDup_nil_2.
  by rewrite foldl_app.
Qed.

(** X6. The inline style of a merge of two dictionaries that share no key
    and are not empty is the inline style of the first, a blank, and the
    inline style of the second. *)
Theorem dict_to_style_merge_disjoint (A B : style_dict) :
  PyDict.wf A → PyDict.wf B → A ≠ [] → B ≠ [] →
  (∀ k, k ∈ PyDict.keys A → k ∉ PyDict.keys B) →
  dict_to_style (merge_styles [A; B])
  = dict_to_style A +:+ " " +:+ dict_to_style B.
Proof.
  intros HA HB HA' HB' Hdisj.
  rewrite merge_styles_two_disjoint by done.
  by apply dict_to_style_app.
Qed.

(** The first composition of the page of [04_style_dictionaries.py]. *)
Lemma dict_to_style_merge_disjoint_witness :
  dict_to_style
    (merge_styles
       [ [("color", "#1f2937"); ("font-size", "16px")];
         [("background-color", "#f3f4f6"); ("padding", "15px");
          ("border-radius", "8px")] ])
  = "color: #1f2937; font-size: 16px; background-color: #f3f4f6; padding: 15px; border-radius: 8px;".
Proof.
  rewrite dict_to_style_merge_disjoint;
    [reflexivity|compute_done|compute_done|done|done|].
  intros k Hk. simpl in Hk.
  repeat (apply elem_of_cons in Hk as [->|Hk]; [compute_done|]).
  by apply elem_of_nil in Hk.
Defined.

(** X7. Every call of [merge_styles] returns a dictionary of its own: two
    calls with the same arguments return two different references, to
    dictionaries of the same content, and the second call leaves the
    result of the first as it was. *)
Theorem merge_styles_fresh_each_call
    (h : gmap loc style_dict) (style_dicts : list loc)
    (values : list style_dict) :
  Forall2 (λ l d, h !! l = Some d) style_dicts values →
  ∃ r1 h1 r2 h2,
    Heap.merge_styles style_dicts h = Some (r1, h1)
    ∧ Heap.merge_styles style_dicts h1 = Some (r2, h2)
    ∧ r1 ≠ r2
    ∧ h2 !! r1 = Some (merge_styles values)
    ∧ h2 !! r2 = Some (merge_styles values).
Proof.
  intros Hargs.
  set (r1 := fresh (dom h)).
  set (h1 := <[r1 := merge_styles values]> h).
  assert (h !! r1 = None) as Hr1 by apply not_elem_of_dom, is_fresh.
  assert (Forall2 (λ l d, h1 !! l = Some d) style_dicts values) as Hargs1.
  { eapply Forall2_impl; [done|]. simpl. intros l d Hl. unfold h1.
    rewrite lookup_insert_ne; [done|]. intros <-. by rewrite Hr1 in Hl. }
  set (r2 := fresh (dom h1)).
  assert (r1 ≠ r2) as Hne.
  { intros Heq. apply (is_fresh (dom h1)). fold r2. rewrite <-Heq.
    apply elem_of_dom. unfold h1. rewrite lookup_insert_eq. by eexists. }
  exists r1, h1, r2, (<[r2 := merge_styles values]> h1). split_and!.
  - by apply heap_merge_styles_run.
  - by apply heap_merge_styles_run.
  - done.
  - rewrite lookup_insert_ne by done. apply lookup_insert_eq.
  - apply lookup_insert_eq.
Qed.

(** One dictionary in the store, merged twice. *)
Lemma merge_styles_fresh_each_call_witness :
  let h : gmap loc style_dict := {[ 1%positive := [("color", "red")] ]} in
  ∃ r1 h1 r2 h2,
    Heap.merge_styles [1%positive] h = Some (r1, h1)
    ∧ Heap.merge_styles [1%positive] h1 = Some (r2, h2)
    ∧ r1 ≠ r2
    ∧ h2 !! r1 = Some [("color", "red")]
    ∧ h2 !! r2 = Some [("color", "red")].
Proof.
  intros h.
  apply (merge_styles_fresh_each_call h [1%positive] [[("color", "red")]]).
  repeat constructor.
Defined.

(** ** More about the generator *)

Section generator_more.
Import PyDict PyDictFacts PyDictMore.
Implicit Types (σ : gmap loc CSSGenerator) (self : loc) (g : CSSGenerator).

Lemma bind_assoc_run {O A B C} (m : M O A) (k1 : A → M O B) (k2 : B → M O C)
    (σ : gmap loc O) :
  ((m ≫= k1) ≫= k2) σ = (m ≫= λ a, k1 a ≫= k2) σ.
Proof. unfold mbind, M_bind. by destruct (m σ) as [[a σ']|]. Qed.

Lemma ret_bind_run {O A B} (a : A) (k : A → M O B) (σ : gmap loc O) :
  (mret a ≫= k) σ = k a σ.
Proof. done. Qed.

Lemma join_nonempty (sep x : string) (l : list string) :
  x ≠ EmptyString → join sep (x :: l) ≠ EmptyString.
Proof.
  intros Hx. destruct x as [|c x]; [done|].
  destruct l; [done|]. by rewrite join_cons_cons, string_app_cons.
Qed.

Lemma css_line_nonempty (item : string * style_dict) :
  css_line item ≠ EmptyString.
Proof. unfold css_line. by rewrite string_app_cons. Qed.
End generator_more.

(** One step of a sequence of [add_class] calls on the instance [self]. *)
Ltac run_add_class Hself :=
  first
    [ rewrite bind_assoc_run
    | rewrite ret_bind_run
    | erewrite (bind_Some (add_class _ _ _))
        by (apply add_class_run;
            [first [exact Hself|apply lookup_insert_eq]|compute_done]) ];
  rewrite ?insert_insert_eq.

Lemma add_utility_classes_run
    (σ : gmap loc CSSGenerator) (self : loc) (g : CSSGenerator) :
  σ !! self = Some g →
  add_utility_classes self σ
  = Some (self,
          <[self := {| classes := PyDict.update (classes g) utility_classes |}]>
            σ).
Proof.
  intros Hself. unfold add_utility_classes, colors. cbn [for_each].
  repeat run_add_class Hself. reflexivity.
Qed.

Lemma generate_responsive_classes_run
    (σ : gmap loc CSSGenerator) (self : loc) (g : CSSGenerator) :
  σ !! self = Some g →
  generate_responsive_classes self σ
  = Some (self,
          <[self := {| classes :=
                         PyDict.update (classes g) responsive_classes |}]> σ).
Proof.
  intros Hself. unfold generate_responsive_classes.
  repeat run_add_class Hself. reflexivity.
Qed.

Lemma generate_component_classes_run
    (σ : gmap loc CSSGenerator) (self : loc) (g : CSSGenerator) :
  σ !! self = Some g →
  generate_component_classes self σ
  = Some (self,
          <[self := {| classes :=
                         PyDict.update (classes g) component_classes |}]> σ).
Proof.
  intros Hself. unfold generate_component_classes.
  repeat run_add_class Hself. reflexivity.
Qed.

(** X8. [add_class], called with a declaration that can be passed as
    keyword arguments (each property once, none called [self] or [name]),
    touches the one class it is given, on the one instance it is called
    on: the names stay unique, every other name keeps its declaration,
    every other object of the store is unchanged, and the number of
    classes grows by one for a new name and stays for a name that was
    registered. *)
Theorem add_class_keeps_other_classes
    (σ : gmap loc CSSGenerator) (self : loc) (g : CSSGenerator)
    (name : string) (styles : style_dict) :
  σ !! self = Some g →
  PyDict.wf (classes g) →
  keywords_ok styles →
  ∃ σ' g',
    add_class self name styles σ = Some (self, σ')
    ∧ σ' !! self = Some g'
    ∧ PyDict.wf (classes g')
    ∧ (∀ other, other ≠ name →
         PyDict.get other (classes g') = PyDict.get other (classes g))
    ∧ (∀ l, l ≠ self → σ' !! l = σ !! l)
    ∧ length (classes g')
      = if decide (name ∈ PyDict.keys (classes g))
        then length (classes g) else S (length (classes g)).
Proof.
  intros Hself Hwf Hok. eexists _, _. split_and!.
  - by apply add_class_run.
  - apply lookup_insert_eq.
  - by apply PyDictFacts.wf_set.
  - intros other Hne. simpl. by apply PyDictFacts.get_set_ne.
  - intros l Hl. by rewrite lookup_insert_ne.
  - apply PyDictMore.length_set.
Qed.

(** Two generators in the store; a class is registered again on the first. *)
Lemma add_class_keeps_other_classes_witness :
  let g1 := {| classes := [("x", [("margin", "0")]); ("y", [("padding", "0")])] |} in
  let g2 := {| classes := [("x", [("color", "red")])] |} in
  ∃ σ' g',
    add_class 1%positive "x" [("color", "blue")]
      {[ 1%positive := g1; 2%positive := g2 ]} = Some (1%positive, σ')
    ∧ σ' !! 1%positive = Some g'
    ∧ PyDict.get "y" (classes g') = Some [("padding", "0")]
    ∧ σ' !! 2%positive = Some g2
    ∧ length (classes g') = 2.
Proof.
  intros g1 g2.
  destruct (add_class_keeps_other_classes
              {[ 1%positive := g1; 2%positive := g2 ]} 1%positive g1
              "x" [("color", "blue")])
    as (σ' & g' & Hrun & Hg' & _ & Hother & Hframe & Hlen);
    [reflexivity|compute_done|compute_done|].
  exists σ', g'. split_and!; [done|done| | |].
  - by rewrite Hother.
  - by rewrite Hframe.
  - by rewrite Hlen.
Defined.

(** X9. Registering a class under a new name, with a declaration that
    can be passed as keyword arguments (each property once, none called
    [self] or [name]), appends its block to the stylesheet: the output of
    [to_css] after the call is the output before it, a newline and the
    block of the new class; on a generator with no classes it is the block
    alone. *)
Theorem add_class_appends_block
    (σ : gmap loc CSSGenerator) (self : loc) (g : CSSGenerator)
    (name : string) (styles : style_dict) :
  σ !! self = Some g →
  name ∉ PyDict.keys (classes g) →
  keywords_ok styles →
  ∃ css σ',
    to_css self σ = Some (css, σ)
    ∧ (add_class self name styles;; to_css self) σ
      = Some ((if decide (classes g = []) then EmptyString
               else css +:+ newline)
              +:+ "." +:+ name +:+ " { " +:+ dict_to_style styles +:+ " }",
              σ').
Proof.
  intros Hself Hnew Hok. eexists _, _. split; [by apply to_css_run|].
  erewrite bind_Some by by apply add_class_run.
  erewrite to_css_run by apply lookup_insert_eq.
  simpl. rewrite PyDictFacts.set_new, fmap_app by done. simpl.
  pose proof (css_line_dict_to_style (name, styles)) as Hline.
  simpl in Hline. rewrite <-Hline. f_equal. f_equal.
  case_decide as Hcs.
  - by rewrite Hcs.
  - rewrite join_app, string_app_assoc; [done| |done].
    by destruct (classes g).
Qed.

(** A class [z] after the classes [x] and [y]. *)
Lemma add_class_appends_block_witness :
  ∃ σ',
    (add_class 1%positive "z" [("color", "red")];; to_css 1%positive)
      {[ 1%positive := {| classes := [("x", [("margin", "0")]);
                                      ("y", [("padding", "0")])] |} ]}
    = Some (".x { margin: 0; }" +:+ newline +:+ ".y { padding: 0; }"
            +:+ newline +:+ ".z { color: red; }", σ').
Proof.
  destruct (add_class_appends_block
              {[ 1%positive := {| classes := [("x", [("margin", "0")]);
                                              ("y", [("padding", "0")])] |} ]}
              1%positive
              {| classes := [("x", [("margin", "0")]);
                             ("y", [("padding", "0")])] |}
              "z" [("color", "red")])
    as (css & σ' & Hcss & Hrun); [reflexivity|compute_done|compute_done|].
  exists σ'. rewrite Hrun. f_equal. f_equal.
  vm_compute in Hcss. injection Hcss as <-. reflexivity.
Defined.

(** X10. The stylesheet is the empty string for a generator with no
    classes, and for no other: [to_css] returns the empty string exactly
    when no class is registered, and it leaves the store as it is. *)
Theorem to_css_empty_iff
    (σ : gmap loc CSSGenerator) (self : loc) (g : CSSGenerator) :
  σ !! self = Some g →
  ∃ css,
    to_css self σ = Some (css, σ)
    ∧ (css = EmptyString ↔ classes g = []).
Proof.
  intros Hself. eexists. split; [by apply to_css_run|].
  destruct (classes g) as [|c cs]; [done|]. split; [|done].
  intros Hcss. exfalso. revert Hcss. rewrite fmap_cons.
  apply join_nonempty, css_line_nonempty.
Qed.

(** A new generator, and one with a class whose declaration is empty. *)
Lemma to_css_empty_iff_witness :
  to_css 1%positive {[ 1%positive := __init__ ]}
  = Some (EmptyString, {[ 1%positive := __init__ ]})
  ∧ ∃ css,
      to_css 1%positive {[ 1%positive := {| classes := [("a", [])] |} ]}
      = Some (css, {[ 1%positive := {| classes := [("a", [])] |} ]})
      ∧ String.eqb css EmptyString = false.
Proof.
  split; [reflexivity|].
  destruct (to_css_empty_iff
              {[ 1%positive := {| classes := [("a", [])] |} ]} 1%positive
              {| classes := [("a", [])] |})
    as (css & Hrun & Hiff); [reflexivity|].
  exists css. split; [done|].
  apply String.eqb_neq. intros Hcss. by apply Hiff in Hcss.
Defined.

(** X11. Two registrations under different names, with declarations that
    can be passed as keyword arguments (each property once, none called
    [self] or [name]), can be made in either order: both orders leave
    every name with the same declaration, and when one of the two names
    was registered before, they leave the very same generator, block
    order included. *)
Theorem add_class_order
    (σ : gmap loc CSSGenerator) (self : loc) (g : CSSGenerator)
    (name1 name2 : string) (styles1 styles2 : style_dict) :
  σ !! self = Some g →
  name1 ≠ name2 →
  keywords_ok styles1 →
  keywords_ok styles2 →
  ∃ σ12 σ21 g12 g21,
    (add_class self name1 styles1;; add_class self name2 styles2) σ
    = Some (self, σ12)
    ∧ (add_class self name2 styles2;; add_class self name1 styles1) σ
      = Some (self, σ21)
    ∧ σ12 !! self = Some g12
    ∧ σ21 !! self = Some g21
    ∧ (∀ name, PyDict.get name (classes g12) = PyDict.get name (classes g21))
    ∧ (name1 ∈ PyDict.keys (classes g) ∨ name2 ∈ PyDict.keys (classes g) →
       σ12 = σ21).
Proof.
  intros Hself Hne Hok1 Hok2. eexists _, _, _, _. split_and!.
  - erewrite bind_Some by by apply add_class_run.
    apply add_class_run; [apply lookup_insert_eq|done].
  - erewrite bind_Some by by apply add_class_run.
    apply add_class_run; [apply lookup_insert_eq|done].
  - apply lookup_insert_eq.
  - apply lookup_insert_eq.
  - intros name. simpl.
    destruct (decide (name = name2)) as [->|Hn2].
    { by rewrite PyDictFacts.get_set_eq, PyDictFacts.get_set_ne,
        PyDictFacts.get_set_eq. }
    rewrite (PyDictFacts.get_set_ne name2) by done.
    destruct (decide (name = name1)) as [->|Hn1].
    { by rewrite !PyDictFacts.get_set_eq. }
    by rewrite !PyDictFacts.get_set_ne.
  - intros Hin. rewrite !insert_insert_eq. f_equal. simpl. f_equal.
    destruct Hin as [Hin|Hin].
    + symmetry. by apply PyDictFacts.set_set_present.
    + by apply PyDictFacts.set_set_present.
Qed.

(** The class [y] is registered before, the class [z] is new. *)
Lemma add_class_order_witness :
  let σ : gmap loc CSSGenerator :=
    {[ 1%positive := {| classes := [("y", [("padding", "0")])] |} ]} in
  (add_class 1%positive "z" [("color", "red")];;
   add_class 1%positive "y" [("margin", "0")]) σ
  = (add_class 1%positive "y" [("margin", "0")];;
     add_class 1%positive "z" [("color", "red")]) σ.
Proof.
  intros σ.
  destruct (add_class_order σ 1%positive
              {| classes := [("y", [("padding", "0")])] |}
              "z" "y" [("color", "red")] [("margin", "0")])
    as (σ12 & σ21 & g12 & g21 & H12 & H21 & _ & _ & _ & Heq);
    [reflexivity|discriminate|compute_done|compute_done|].
  rewrite H12, H21, Heq; [reflexivity|]. right. apply list_elem_of_here.
Defined.

(** ** The class libraries *)

Section libraries.
Import PyDict PyDictFacts PyDictMore.
Implicit Types (σ : gmap loc CSSGenerator) (self : loc) (g : CSSGenerator).
Implicit Types (regs : list (string * style_dict)).
Implicit Types (method : loc → M CSSGenerator loc).

Lemma class_libraries_inv method regs :
  (method, regs) ∈ class_libraries → wf regs ∧ runs_as method regs.
Proof.
  unfold class_libraries. intros Hin.
  repeat (apply elem_of_cons in Hin as [[= -> ->]|Hin]).
  - split; [compute_done|]. intros σ self g. apply add_utility_classes_run.
  - split; [compute_done|].
    intros σ self g. apply generate_responsive_classes_run.
  - split; [compute_done|].
    intros σ self g. apply generate_component_classes_run.
  - by apply elem_of_nil in Hin.
Qed.

(** Two libraries are the same one, or they share no class name. *)
Lemma class_libraries_disjoint method1 regs1 method2 regs2 :
  (method1, regs1) ∈ class_libraries →
  (method2, regs2) ∈ class_libraries →
  regs1 = regs2 ∨ Forall (λ name, name ∉ keys regs2) (keys regs1).
Proof.
  unfold class_libraries. intros Hin1 Hin2.
  repeat (apply elem_of_cons in Hin1 as [[= -> ->]|Hin1]);
    try (by apply elem_of_nil in Hin1);
    repeat (apply elem_of_cons in Hin2 as [[= -> ->]|Hin2]);
    try (by apply elem_of_nil in Hin2);
    first [by left|right; compute_done].
Qed.

(** What a method that registers [regs] leaves behind. *)
Lemma runs_as_properties method regs σ self g :
  wf regs → runs_as method regs → σ !! self = Some g →
  ∃ σ' g',
    method self σ = Some (self, σ')
    ∧ σ' !! self = Some g'
    ∧ (∀ name styles,
         (name, styles) ∈ regs → get name (classes g') = Some styles)
    ∧ (∀ name, name ∉ keys regs →
         get name (classes g') = get name (classes g))
    ∧ (∃ new, keys (classes g') = keys (classes g) ++ new)
    ∧ (wf (classes g) → wf (classes g'))
    ∧ (∀ l, l ≠ self → σ' !! l = σ !! l)
    ∧ method self σ' = Some (self, σ').
Proof.
  intros Hwf Hrun Hself. eexists _, _. split_and!.
  - by apply Hrun.
  - apply lookup_insert_eq.
  - intros name styles Hin. simpl.
    by rewrite get_update, (elem_of_get name styles regs).
  - intros name Hname. simpl. by apply get_update_other.
  - apply keys_update_prefix.
  - intros Hg. by apply wf_update.
  - intros l Hl. by rewrite lookup_insert_ne.
  - erewrite Hrun by apply lookup_insert_eq.
    simpl. by rewrite insert_insert_eq, update_idem.
Qed.
End libraries.

(** X12. Each of the three library methods, [add_utility_classes],
    [generate_responsive_classes] and [generate_component_classes],
    called on a generator in any state, returns the generator and leaves
    it with every class of the library registered with its declaration;
    the classes under other names keep their declarations, the classes
    that were there keep their places, unique names stay unique, no other
    object changes, and a second call changes nothing. *)
Theorem class_library_registers
    (σ : gmap loc CSSGenerator) (self : loc) (g : CSSGenerator)
    (method : loc → M CSSGenerator loc) (regs : list (string * style_dict)) :
  (method, regs) ∈ class_libraries →
  σ !! self = Some g →
  ∃ σ' g',
    method self σ = Some (self, σ')
    ∧ σ' !! self = Some g'
    ∧ (∀ name styles,
         (name, styles) ∈ regs → PyDict.get name (classes g') = Some styles)
    ∧ (∀ name, name ∉ regs.*1 →
         PyDict.get name (classes g') = PyDict.get name (classes g))
    ∧ (∃ new, PyDict.keys (classes g') = PyDict.keys (classes g) ++ new)
    ∧ (PyDict.wf (classes g) → PyDict.wf (classes g'))
    ∧ (∀ l, l ≠ self → σ' !! l = σ !! l)
    ∧ method self σ' = Some (self, σ').
Proof.
  intros [Hwf Hrun]%class_libraries_inv Hself.
  by apply runs_as_properties.
Qed.

(** The component classes on a generator that has a class [btn] of its
    own and a class [mine]. *)
Lemma class_library_registers_witness :
  ∃ σ' g',
    generate_component_classes 1%positive
      {[ 1%positive := {| classes := [("mine", [("color", "red")]);
                                      ("btn", [("color", "blue")])] |} ]}
    = Some (1%positive, σ')
    ∧ σ' !! 1%positive = Some g'
    ∧ PyDict.get "btn-primary" (classes g')
      = Some [("background-color", "#3b82f6"); ("color", "white")]
    ∧ PyDict.get "mine" (classes g') = Some [("color", "red")]
    ∧ generate_component_classes 1%positive σ' = Some (1%positive, σ').
Proof.
  destruct (class_library_registers
              {[ 1%positive := {| classes := [("mine", [("color", "red")]);
                                              ("btn", [("color", "blue")])] |} ]}
              1%positive
              {| classes := [("mine", [("color", "red")]);
                             ("btn", [("color", "blue")])] |}
              generate_component_classes component_classes)
    as (σ' & g' & Hrun & Hg' & Hreg & Hother & _ & _ & _ & Hagain).
  { do 2 apply list_elem_of_further. apply list_elem_of_here. }
  { reflexivity. }
  exists σ', g'. split_and!; [done|done| | |done].
  - apply Hreg. apply list_elem_of_further, list_elem_of_here.
  - rewrite Hother; [reflexivity|compute_done].
Defined.

(** X13. The scales of [add_utility_classes]: after the call, on a
    generator in any state, the classes [p-i] and [m-i] for [i] from 0 to
    5 have the padding and the margin of [4 * i] pixels, and for each of
    the six colours the classes [text-] and [bg-] of its name have it as
    colour and as background colour. *)
Theorem add_utility_classes_scales
    (σ : gmap loc CSSGenerator) (self : loc) (g : CSSGenerator) :
  σ !! self = Some g →
  ∃ σ' g',
    add_utility_classes self σ = Some (self, σ')
    ∧ σ' !! self = Some g'
    ∧ (∀ i : Z, (0 ≤ i ≤ 5)%Z →
         PyDict.get ("p-" +:+ pretty i) (classes g')
         = Some [("padding", pretty (4 * i)%Z +:+ "px")]
         ∧ PyDict.get ("m-" +:+ pretty i) (classes g')
           = Some [("margin", pretty (4 * i)%Z +:+ "px")])
    ∧ (∀ name color, (name, color) ∈ colors →
         PyDict.get ("text-" +:+ name) (classes g') = Some [("color", color)]
         ∧ PyDict.get ("bg-" +:+ name) (classes g')
           = Some [("background-color", color)]).
Proof.
  intros Hself.
  destruct (runs_as_properties add_utility_classes utility_classes σ self g)
    as (σ' & g' & Hrun & Hg' & Hreg & _); [compute_done| |done|].
  { intros σ0 self0 g0. apply add_utility_classes_run. }
  exists σ', g'. split_and!; [done|done| |].
  - intros i Hi.
    assert (i ∈ [0; 1; 2; 3; 4; 5]%Z) as Hin.
    { assert (i = 0 ∨ i = 1 ∨ i = 2 ∨ i = 3 ∨ i = 4 ∨ i = 5)%Z
        as Hcases by lia.
      repeat (destruct Hcases as [->|Hcases]; [compute_done|]).
      subst. compute_done. }
    repeat (apply elem_of_cons in Hin as [->|Hin];
            [split; apply Hreg; compute_done|]).
    by apply elem_of_nil in Hin.
  - intros name color Hin. unfold colors in Hin.
    repeat (apply elem_of_cons in Hin as [[= -> ->]|Hin];
            [split; apply Hreg; compute_done|]).
    by apply elem_of_nil in Hin.
Qed.

(** On a new generator, and on one that has a class [p-3] of its own. *)
Lemma add_utility_classes_scales_witness :
  ∃ σ' g',
    add_utility_classes 1%positive
      {[ 1%positive := {| classes := [("p-3", [("padding", "1em")])] |} ]}
    = Some (1%positive, σ')
    ∧ σ' !! 1%positive = Some g'
    ∧ PyDict.get "p-3" (classes g') = Some [("padding", "12px")]
    ∧ PyDict.get "bg-gray" (classes g')
      = Some [("background-color", "#6b7280")].
Proof.
  destruct (add_utility_classes_scales
              {[ 1%positive := {| classes := [("p-3", [("padding", "1em")])] |} ]}
              1%positive {| classes := [("p-3", [("padding", "1em")])] |})
    as (σ' & g' & Hrun & Hg' & Hscale & Hcolors); [reflexivity|].
  exists σ', g'. split_and!; [done|done| |].
  - destruct (Hscale 3%Z) as [Hp _]; [lia|]. exact Hp.
  - destruct (Hcolors "gray" "#6b7280") as [_ Hbg]; [compute_done|].
    exact Hbg.
Defined.

Section any_order.
Import PyDict PyDictFacts PyDictMore.
Implicit Types (σ : gmap loc CSSGenerator) (self : loc) (g : CSSGenerator).
Implicit Types (c : list (string * style_dict)).
Implicit Types (methods : list (loc → M CSSGenerator loc)).

Lemma agree_update c c' (regs : list (string * style_dict)) :
  wf regs → agree c c' → agree (update c regs) (update c' regs).
Proof. intros Hwf Hc name. by rewrite !get_update, Hc. Qed.

Lemma agree_swap c c' (x y : list (string * style_dict)) :
  wf x → wf y →
  x = y ∨ Forall (λ name, name ∉ keys y) (keys x) →
  agree c c' →
  agree (update (update c y) x) (update (update c' x) y).
Proof.
  intros Hx Hy Hxy Hc name. rewrite !get_update, Hc by done.
  destruct Hxy as [->|Hdisj]; [by destruct (get name y)|].
  destruct (get name x) as [vx|] eqn:Hgx; [|done].
  assert (get name y = None) as ->; [|done].
  apply get_None. rewrite Forall_forall in Hdisj. apply Hdisj.
  destruct (decide (name ∈ keys x)) as [|Hn]; [done|].
  apply get_None in Hn. congruence.
Qed.

Lemma agree_keys c c' :
  wf c → wf c' → agree c c' → keys c ≡ₚ keys c'.
Proof.
  intros Hc Hc' Hagree. apply NoDup_Permutation; [done|done|].
  intros name. destruct (decide (name ∈ keys c)) as [Hin|Hin].
  - split; [intros _|done].
    destruct (decide (name ∈ keys c')) as [|Hin']; [done|].
    apply get_None in Hin'. rewrite <-Hagree in Hin'.
    by apply get_None in Hin'.
  - split; [done|]. intros Hin'. apply get_None in Hin.
    rewrite Hagree in Hin. by apply get_None in Hin.
Qed.

Lemma call_each_nil self σ : call_each self [] σ = Some ((), σ).
Proof. done. Qed.

Lemma call_each_cons method regs methods σ self g :
  runs_as method regs → σ !! self = Some g →
  call_each self (method :: methods) σ
  = call_each self methods
      (<[self := {| classes := update (classes g) regs |}]> σ).
Proof.
  intros Hrun Hself. unfold call_each. cbn [for_each].
  rewrite bind_assoc_run. erewrite bind_Some by by apply Hrun.
  by rewrite ret_bind_run.
Qed.

Lemma library_method_inv method :
  method ∈ class_libraries.*1 → ∃ regs, (method, regs) ∈ class_libraries.
Proof.
  intros ([m regs] & -> & Hin)%list_elem_of_fmap. by exists regs.
Qed.

Lemma call_each_agree_cons self method methods1 methods2 :
  method ∈ class_libraries.*1 →
  call_each_agree self methods1 methods2 →
  call_each_agree self (method :: methods1) (method :: methods2).
Proof.
  intros [regs [Hwf Hrun]%class_libraries_inv]%library_method_inv IH.
  intros σ σ' g g' Hself Hself' Hagree.
  rewrite (call_each_cons method regs _ σ self g) by done.
  rewrite (call_each_cons method regs _ σ' self g') by done.
  destruct (IH (<[self := {| classes := update (classes g) regs |}]> σ)
              (<[self := {| classes := update (classes g') regs |}]> σ')
              {| classes := update (classes g) regs |}
              {| classes := update (classes g') regs |})
    as (σ1 & σ2 & g1 & g2 & ? & ? & ? & ? & ? & Hwf1 & Hwf2);
    [apply lookup_insert_eq|apply lookup_insert_eq|by apply agree_update|].
  exists σ1, σ2, g1, g2. split_and!; try done.
  - intros Hg. by apply Hwf1, wf_update.
  - intros Hg. by apply Hwf2, wf_update.
Qed.

Lemma call_each_agree_refl self methods :
  Forall (λ m, m ∈ class_libraries.*1) methods →
  call_each_agree self methods methods.
Proof.
  induction 1 as [|method methods Hm _ IH].
  - intros σ σ' g g' Hself Hself' Hagree.
    by exists σ, σ', g, g'.
  - by apply call_each_agree_cons.
Qed.

Lemma call_each_agree_perm self methods1 methods2 :
  methods1 ≡ₚ methods2 →
  Forall (λ m, m ∈ class_libraries.*1) methods1 →
  call_each_agree self methods1 methods2.
Proof.
  induction 1 as [|m l l' Hperm IH|x y l|l l' l'' Hperm1 IH1 Hperm2 IH2];
    intros Hlibs.
  - by apply call_each_agree_refl.
  - apply Forall_cons in Hlibs as [Hm Hlibs].
    by apply call_each_agree_cons, IH.
  - apply Forall_cons in Hlibs as [Hy Hlibs].
    apply Forall_cons in Hlibs as [Hx Hlibs].
    destruct (library_method_inv _ Hx) as [rx Hrx].
    destruct (library_method_inv _ Hy) as [ry Hry].
    pose proof (class_libraries_disjoint _ _ _ _ Hrx Hry) as Hxy.
    apply class_libraries_inv in Hrx as [Hwx Hrunx].
    apply class_libraries_inv in Hry as [Hwy Hruny].
    intros σ σ' g g' Hself Hself' Hagree.
    rewrite (call_each_cons y ry _ σ self g) by done.
    rewrite (call_each_cons x rx _ _ self _)
      by first [done|apply lookup_insert_eq].
    rewrite (call_each_cons x rx _ σ' self g') by done.
    rewrite (call_each_cons y ry _ _ self _)
      by first [done|apply lookup_insert_eq].
    rewrite !insert_insert_eq. simpl.
    destruct (call_each_agree_refl self l Hlibs
                (<[self := {| classes := update (update (classes g) ry) rx |}]> σ)
                (<[self := {| classes := update (update (classes g') rx) ry |}]> σ')
                {| classes := update (update (classes g) ry) rx |}
                {| classes := update (update (classes g') rx) ry |})
      as (σ1 & σ2 & g1 & g2 & ? & ? & ? & ? & ? & Hwf1 & Hwf2);
      [apply lookup_insert_eq|apply lookup_insert_eq|by apply agree_swap|].
    exists σ1, σ2, g1, g2. split_and!; try done.
    + intros Hg. by apply Hwf1, wf_update, wf_update.
    + intros Hg. by apply Hwf2, wf_update, wf_update.
  - assert (Forall (λ m, m ∈ class_libraries.*1) l') as Hlibs'
      by by rewrite <-Hperm1.
    intros σ σ' g g' Hself Hself' Hagree.
    destruct (IH1 Hlibs σ σ' g g')
      as (σ1 & σ2 & g1 & g2 & Hrun1 & Hrun2 & Hg1 & Hg2 & H12 & Hwf1 & _);
      [done..|].
    destruct (IH2 Hlibs' σ' σ' g' g')
      as (σ2' & σ3 & g2' & g3 & Hrun2' & Hrun3 & Hg2' & Hg3 & H23 & _ & Hwf3);
      [done|done|by intros ?|].
    rewrite Hrun2 in Hrun2'. injection Hrun2' as <-. rewrite Hg2 in Hg2'.
    injection Hg2' as <-.
    exists σ1, σ3, g1, g3. split_and!; try done.
    intros name. by rewrite (H12 name).
Qed.
End any_order.

(** X14. The three library methods can be called in any order, and on a
    generator in any state: two sequences of calls that are permutations
    of each other leave every class name with the same declaration, and,
    on a generator with unique names, the same class names; only the
    order of the blocks may differ. *)
Theorem class_libraries_in_any_order
    (σ : gmap loc CSSGenerator) (self : loc) (g : CSSGenerator)
    (methods1 methods2 : list (loc → M CSSGenerator loc)) :
  σ !! self = Some g →
  Forall (λ method,
            method ∈ [add_utility_classes; generate_responsive_classes;
                      generate_component_classes]) methods1 →
  methods1 ≡ₚ methods2 →
  ∃ σ1 σ2 g1 g2,
    call_each self methods1 σ = Some ((), σ1)
    ∧ call_each self methods2 σ = Some ((), σ2)
    ∧ σ1 !! self = Some g1
    ∧ σ2 !! self = Some g2
    ∧ (∀ name, PyDict.get name (classes g1) = PyDict.get name (classes g2))
    ∧ (PyDict.wf (classes g) →
       PyDict.keys (classes g1) ≡ₚ PyDict.keys (classes g2)).
Proof.
  intros Hself Hlibs Hperm.
  destruct (call_each_agree_perm self methods1 methods2 Hperm Hlibs σ σ g g)
    as (σ1 & σ2 & g1 & g2 & ? & ? & ? & ? & Hagree & Hwf1 & Hwf2);
    [done|done|done|].
  exists σ1, σ2, g1, g2. split_and!; try done.
  intros Hg. apply agree_keys; auto.
Qed.

(** The components before the utilities, and after them, on a new
    generator. *)
Lemma class_libraries_in_any_order_witness :
  ∃ σ1 σ2 g1 g2,
    call_each 1%positive [generate_component_classes; add_utility_classes]
      {[ 1%positive := __init__ ]} = Some ((), σ1)
    ∧ call_each 1%positive [add_utility_classes; generate_component_classes]
        {[ 1%positive := __init__ ]} = Some ((), σ2)
    ∧ σ1 !! 1%positive = Some g1
    ∧ σ2 !! 1%positive = Some g2
    ∧ (∀ name, PyDict.get name (classes g1) = PyDict.get name (classes g2)).
Proof.
  destruct (class_libraries_in_any_order {[ 1%positive := __init__ ]}
              1%positive __init__
              [generate_component_classes; add_utility_classes]
              [add_utility_classes; generate_component_classes])
    as (σ1 & σ2 & g1 & g2 & Hrun1 & Hrun2 & Hg1 & Hg2 & Hagree & _).
  - reflexivity.
  - repeat constructor.
  - apply Permutation_swap.
  - exists σ1, σ2, g1, g2.
    exact (conj Hrun1 (conj Hrun2 (conj Hg1 (conj Hg2 Hagree)))).
Defined.

(** X15. The generator that the module builds: whatever the store, the
    instance is new, and after the three libraries and the three classes
    of the page it holds the 53 registrations in the order in which they
    were made, each under a name of its own; no registration of the
    script overwrites another. *)
Theorem css_gen_classes (σ : gmap loc CSSGenerator) :
  ∃ l σ',
    css_gen σ = Some (l, σ')
    ∧ σ !! l = None
    ∧ σ' !! l
      = Some {| classes := utility_classes ++ responsive_classes
                           ++ component_classes ++ page_classes |}
    ∧ NoDup (utility_classes ++ responsive_classes
             ++ component_classes ++ page_classes).*1
    ∧ length (utility_classes ++ responsive_classes
              ++ component_classes ++ page_classes) = 53
    ∧ (∀ l', l' ≠ l → σ' !! l' = σ !! l').
Proof.
  destruct (alloc_fresh __init__ σ) as (l & Halloc & Hfresh).
  eexists l, _. split_and!; [|done| |compute_done|compute_done|].
  - unfold css_gen, CSSGenerator_new. erewrite bind_Some by done.
    erewrite bind_Some
      by by apply add_utility_classes_run, lookup_insert_eq.
    erewrite bind_Some
      by by apply generate_responsive_classes_run, lookup_insert_eq.
    erewrite bind_Some
      by by apply generate_component_classes_run, lookup_insert_eq.
    repeat run_add_class Hfresh. rewrite ?insert_insert_eq. reflexivity.
  - rewrite lookup_insert_eq. reflexivity.
  - intros l' Hl'. by rewrite lookup_insert_ne.
Qed.
